(** * microk8s wrappers: addon resolution ([xable]) and readiness polling

    A shallow embedding of [scripts/wrappers/common/utils.py].

    - Python [str] values are [string]s; [str.split(':')], the substring
      test [sub in s], slicing [s[n:]] and [PurePath.with_suffix('')] are
      written out as functions on them.
    - A Python [set] of strings is the list of its elements in iteration
      order (no duplicates); the order is not fixed by the language, so it
      is whatever the list says.
    - [click.echo], [click.secho] and [subprocess.run] are events of a
      trace; [sys.exit] and an uncaught exception end a run with a status.
    - The readiness loop reads a clock and a probe; both are oracles
      indexed by the number of calls made so far, and the loop is run with
      fuel. *)

From Stdlib Require Import List String Ascii Bool Arith ZArith QArith Lia Lqa.
From Stdlib Require Import Sorted Permutation.
Import ListNotations.

Local Open Scope list_scope.
Local Open Scope string_scope.

(** ** Python string primitives *)

Module PyStr.

(** The one-character string holding a line feed. *)
Definition nl : string := String (ascii_of_nat 10) EmptyString.

(** [s.split(':')]: split on every colon; never the empty list. *)
Fixpoint split_colon (s : string) : list string :=
  match s with
  | EmptyString => [EmptyString]
  | String c s' =>
      if Ascii.eqb c ":" then EmptyString :: split_colon s'
      else match split_colon s' with
           | [] => [String c EmptyString]
           | w :: ws => String c w :: ws
           end
  end.

(** [s.count(':')] *)
Fixpoint count_colons (s : string) : nat :=
  match s with
  | EmptyString => O
  | String c s' => ((if Ascii.eqb c ":" then 1 else 0) + count_colons s')%nat
  end.

(** [sub in s] on strings. *)
Fixpoint contains (sub s : string) : bool :=
  prefix sub s
  || match s with
     | EmptyString => false
     | String _ s' => contains sub s'
     end.

(** [s[n:]] *)
Fixpoint drop (n : nat) (s : string) : string :=
  match n, s with
  | O, _ => s
  | S _, EmptyString => EmptyString
  | S n', String _ s' => drop n' s'
  end.

(** [s[:n]] *)
Fixpoint take (n : nat) (s : string) : string :=
  match n, s with
  | O, _ => EmptyString
  | S _, EmptyString => EmptyString
  | S n', String c s' => String c (take n' s')
  end.

(** [s.rfind('.')], [None] for -1. *)
Fixpoint rfind_dot (s : string) : option nat :=
  match s with
  | EmptyString => None
  | String c s' =>
      match rfind_dot s' with
      | Some i => Some (S i)
      | None => if Ascii.eqb c "." then Some O else None
      end
  end.

(** [PurePath(name).suffix]: from the last dot on, unless that dot is the
    first or the last character. *)
Definition suffix (name : string) : string :=
  match rfind_dot name with
  | Some i =>
      if (0 <? i)%nat && (i <? String.length name - 1)%nat
      then drop i name else EmptyString
  | None => EmptyString
  end.

(** [PurePath(name).with_suffix('').name] *)
Definition with_suffix_empty (name : string) : string :=
  take (String.length name - String.length (suffix name)) name.

(** [fnmatch] of a name against a pattern whose only wildcard is [*]. *)
Fixpoint glob_match (pat name : string) : bool :=
  match pat with
  | EmptyString =>
      match name with EmptyString => true | _ => false end
  | String p pat' =>
      if Ascii.eqb p "*" then
        (fix star (n : string) : bool :=
           glob_match pat' n
           || match n with
              | EmptyString => false
              | String _ n' => star n'
              end) name
      else
        match name with
        | EmptyString => false
        | String c name' => Ascii.eqb p c && glob_match pat' name'
        end
  end.

(** [x in xs] for a list or a set of strings. *)
Definition mem (x : string) (xs : list string) : bool :=
  existsb (String.eqb x) xs.

(** The starred assignment [head, *rest = xs]; [None] is its ValueError. *)
Definition unpack (xs : list string) : option (string * list string) :=
  match xs with
  | [] => None
  | x :: rest => Some (x, rest)
  end.

(** Truth value of a list. *)
Definition truthy {A : Type} (xs : list A) : bool :=
  match xs with [] => false | _ :: _ => true end.

End PyStr.

(** ** Addon resolution *)

Module Addons.
Import PyStr.

(** What a run of [xable] does to the outside world, in order. *)
Inductive event : Type :=
| Echo (message : string) (err : bool)
| Secho (message : string) (fg : option string) (err : bool)
| Run (argv : list string).

Inductive exn : Type :=
| IndexError
| ValueError.

(** How a run ends: falls off the end, [sys.exit(code)], or raises. *)
Inductive status : Type :=
| Returned
| Exited (code : Z)
| Raised (e : exn).

(** Library functions the wrapper calls but does not define. *)
Record collaborators : Type := {
  actions_path : string -> string;        (* str(actions / file) *)
  click_style : string -> string -> string; (* click.style(text, fg=..) *)
  dedent : string -> string;              (* textwrap.dedent *)
  title : string -> string                (* str.title *)
}.

(** The elements of the set comprehension of line 154, in the order the
    directory listing yields them. *)
Definition existing_names (listing : list string) : list string :=
  map (fun sh => drop 7 (with_suffix_empty sh))
      (filter (glob_match "enable.*.sh") listing).

(** [s] is a Python set holding exactly the elements of [xs]. *)
Definition is_set_of (s xs : list string) : Prop :=
  NoDup s /\ forall x, In x s <-> In x xs.

(** [existing_addons] of line 154 for a directory listing. *)
Definition is_existing_addons (listing s : list string) : Prop :=
  is_set_of s (existing_names listing).

(** The test of lines 160 and 171. *)
Definition should_skip (addon : string) (xabled_addons : list string) : bool :=
  mem addon xabled_addons && negb (String.eqb addon "kubeflow").

(** The condition of line 158. *)
Definition multi_mode (existing_addons addons : list string) : bool :=
  forallb (fun a => mem (hd EmptyString (split_colon a)) existing_addons) addons
  && (1 <? List.length addons)%nat.

Definition already_message (addon action : string) : string :=
  "Addon " ++ addon ++ " is already " ++ action ++ "d.".

Definition not_found_message (addon : string) : string :=
  "Addon `" ++ addon ++ "` not found.".

Definition available_message (existing_addons : list string) : string :=
  "The available addons are:" ++ nl ++ " - "
    ++ String.concat (nl ++ " - ") existing_addons.

Section WithCollaborators.
Variable ext : collaborators.

Definition script (action addon : string) : string :=
  actions_path ext (action ++ "." ++ addon ++ ".sh").

(** The text of lines 182-196. *)
Definition ambiguous_message (action : string) : string :=
  click_style ext
    ("Can't pass string arguments and flag arguments simultaneously!" ++ nl)
    "red"
  ++ dedent ext
       (nl
        ++ "                    " ++ title ext action
        ++ " an addon with only one argument style at a time:" ++ nl
        ++ nl
        ++ "                        microk8s " ++ action ++ " foo:'bar'" ++ nl
        ++ "                    or" ++ nl
        ++ nl
        ++ "                        microk8s " ++ action ++ " foo --bar" ++ nl
        ++ "                ").

(** The loop of lines 159-164. *)
Fixpoint xable_each (action : string) (xabled_addons addons : list string)
  : list event * status :=
  match addons with
  | [] => ([], Returned)
  | addon :: rest =>
      if should_skip addon xabled_addons then
        let '(tr, st) := xable_each action xabled_addons rest in
        (Echo (already_message addon action) false :: tr, st)
      else
        match unpack (split_colon addon) with
        | None => ([], Raised ValueError)
        | Some (name, args) =>
            let '(tr, st) := xable_each action xabled_addons rest in
            (Run (script action name :: args) :: tr, st)
        end
  end.

(** The branch of lines 169-205. *)
Definition xable_one (action : string)
    (existing_addons addons xabled_addons : list string)
  : list event * status :=
  match addons with
  | [] => ([], Raised IndexError)
  | first :: rest =>
      match unpack (split_colon first) with
      | None => ([], Raised ValueError)
      | Some (addon, args) =>
          if should_skip addon xabled_addons then
            ([Echo (already_message addon action) false], Exited 0)
          else if negb (mem addon existing_addons) then
            ([Secho (not_found_message addon) (Some "red") true;
              Echo (available_message existing_addons) true],
             Exited 1)
          else if truthy args && truthy rest then
            ([Secho (ambiguous_message action) None true], Exited 1)
          else if truthy args then
            ([Run (script action addon :: args)], Returned)
          else
            ([Run (script action addon :: rest)], Returned)
      end
  end.

(** [xable(action, addons, xabled_addons)] from line 158 on, with the
    set of line 154 given in its iteration order. *)
Definition xable (action : string)
    (existing_addons addons xabled_addons : list string)
  : list event * status :=
  if multi_mode existing_addons addons
  then xable_each action xabled_addons addons
  else xable_one action existing_addons addons xabled_addons.

End WithCollaborators.

(** The [Run] events of a trace, in order. *)
Definition runs (tr : list event) : list (list string) :=
  flat_map (fun e => match e with Run argv => [argv] | _ => [] end) tr.

(** Collaborators used to run the model on concrete requests. *)
Definition demo : collaborators := {|
  actions_path := fun file => "actions/" ++ file;
  click_style := fun text _ => text;
  dedent := fun text => text;
  title := fun text => text
|}.

End Addons.


(** ** Readiness polling *)

Module Readiness.
Import PyStr.

(** Exceptions a probe call can end with.  [KeyboardInterrupt] is the one
    that [except Exception] does not catch. *)
Inductive pyexn : Type :=
| CalledProcessError   (* kubectl exited with a failure; [run(.., die=False)] re-raises *)
| OSError              (* kubectl could not be started *)
| KeyboardInterrupt.

Definition is_Exception (e : pyexn) : bool :=
  match e with
  | KeyboardInterrupt => false
  | _ => true
  end.

Inductive result (A : Type) : Type :=
| Ok (a : A)
| Raise (e : pyexn).

Arguments Ok {A} a.
Arguments Raise {A} e.

(** What [kubectl_get(cmd)] gives for one sample: a listing or an error. *)
Definition probe : Type := string -> result string.

(** [is_cluster_ready()], lines 53-62, for the probe of one sample. *)
Definition is_cluster_ready (kubectl_get : probe) : result bool :=
  match kubectl_get "all" with
  | Raise e => if is_Exception e then Ok false else Raise e
  | Ok service_output =>
      match kubectl_get "nodes" with
      | Raise e => if is_Exception e then Ok false else Raise e
      | Ok node_output =>
          if contains "Ready" node_output
             && contains "service/kubernetes" service_output
          then Ok true
          else Ok false
      end
  end.

(** The outside world of the loop: the value of the n-th [time.time()]
    call and the probe seen by the n-th sample. *)
Record oracle : Type := {
  clock : nat -> Q;
  sample : nat -> probe
}.

(** What the loop has done so far. *)
Record progress : Type := {
  reads : nat;          (* calls of [time.time()] *)
  samples : nat;        (* calls of [is_cluster_ready()] *)
  sleeps : list Q       (* arguments of [time.sleep], latest first *)
}.

Definition tick (p : progress) : progress :=
  {| reads := S (reads p); samples := samples p; sleeps := sleeps p |}.

Definition sampled (p : progress) : progress :=
  {| reads := reads p; samples := S (samples p); sleeps := sleeps p |}.

Definition slept (d : Q) (p : progress) : progress :=
  {| reads := reads p; samples := samples p; sleeps := d :: sleeps p |}.

(** [a > b] on timestamps. *)
Definition Qgt_bool (a b : Q) : bool := negb (Qle_bool a b).

Section WithOracle.
Variable world : oracle.

(** The [while True] loop of lines 76-82; one unit of fuel per iteration.
    [None]: still polling when the fuel ran out. *)
Fixpoint poll (fuel : nat) (timeout start_time : Q) (isReady : bool)
    (p : progress) : option (result bool * progress) :=
  match fuel with
  | O => None
  | S fuel' =>
      let '(expired, p1) :=
        if Qgt_bool timeout 0
        then (Qgt_bool (clock world (reads p)) (start_time + timeout), tick p)
        else (false, p) in
      if expired || isReady then Some (Ok isReady, p1)
      else
        match is_cluster_ready (sample world (samples p1)) with
        | Ok r => poll fuel' timeout start_time r (sampled p1)
        | Raise e =>
            if is_Exception e
            then poll fuel' timeout start_time isReady (slept 2 (sampled p1))
            else Some (Raise e, sampled p1)
        end
  end.

(** [wait_for_ready(wait_ready, timeout)], lines 72-84. *)
Definition wait_for_ready (fuel : nat) (wait_ready : bool) (timeout : Q)
  : option (result bool * progress) :=
  let start_time := clock world 0 in
  poll fuel timeout start_time false
       {| reads := 1; samples := 0; sleeps := [] |}.

End WithOracle.

End Readiness.

(** ** The specification's reading of some operations *)

Module Spec.
Import PyStr Addons.

(** Follows the specification: the existing-addon set for an action holds
    [x] when the actions directory lists the file [<action>.<x>.sh]. *)
Definition existing_for (action : string) (listing : list string) (x : string)
  : Prop :=
  In (action ++ "." ++ x ++ ".sh") listing.

(** Insertion into a list sorted by code points, as [sorted] orders [str]. *)
Fixpoint insert_sorted (x : string) (xs : list string) : list string :=
  match xs with
  | [] => [x]
  | y :: ys => if String.leb x y then x :: y :: ys else y :: insert_sorted x ys
  end.

(** Follows the specification: the sorted list of the existing names. *)
Definition sorted_names (xs : list string) : list string :=
  fold_right insert_sorted [] xs.

(** Follows the specification: NotFoundError reports the sorted list. *)
Definition not_found_sorted (existing_addons : list string) (addon : string)
  : list event * status :=
  ([Secho (not_found_message addon) (Some "red") true;
    Echo (available_message (sorted_names existing_addons)) true],
   Exited 1).

(** Follows the specification: the gate applied to a token's addon name. *)
Definition should_skip_name (token : string) (xabled_addons : list string)
  : bool :=
  should_skip (hd EmptyString (split_colon token)) xabled_addons.

End Spec.


(** ** The addon catalog *)

Module Catalog.
Import PyStr.

(** One entry of [addons["microk8s-addons"]["addons"]] as the YAML file
    gives it; [description] stands for the keys the wrapper does not read. *)
Record addon : Type := {
  name : string;
  supported_architectures : list string;
  description : string
}.

(** Where [sorted] puts one more element: before the first element whose
    key is not smaller, so that equal keys keep their order. *)
Fixpoint insert_by_name (a : addon) (l : list addon) : list addon :=
  match l with
  | [] => [a]
  | b :: l' =>
      if String.leb (name a) (name b) then a :: b :: l'
      else b :: insert_by_name a l'
  end.

(** [sorted(available, key=lambda k: k['name'])]: the stable sort. *)
Definition sorted_by_name (l : list addon) : list addon :=
  fold_right insert_by_name [] l.

(** [get_available_addons(arch)], lines 124-136, for the addons the YAML
    file holds. *)
Definition get_available_addons (addons : list addon) (arch : string)
  : list addon :=
  sorted_by_name
    (filter (fun a => mem arch (supported_architectures a)) addons).

(** [get_addon_by_name(addons, name)], lines 139-144. *)
Definition get_addon_by_name (addons : list addon) (n : string)
  : list addon :=
  filter (fun a => String.eqb n (name a)) addons.

End Catalog.

(** ** Running commands *)

Module Process.

Inductive exn : Type :=
| KeyError (key : string)
| SpawnError                         (* OSError of [subprocess.run] *)
| CalledProcessError (returncode : Z)
| UnicodeDecodeError.

(** [subprocess.CompletedProcess]: exit status and the two captured
    streams, as bytes. *)
Record completed : Type := {
  returncode : Z;
  stdout : string;
  stderr : string
}.

(** What [run] finds around it: [os.environ], [subprocess.run] of a
    command line in an environment ([None]: the command cannot be started)
    and [bytes.decode("utf-8")] ([None]: the bytes are not UTF-8). *)
Record system : Type := {
  environ : string -> option string;
  subprocess_run : list string -> (string -> option string) -> option completed;
  decode : string -> option string
}.

(** What [print] is called with. *)
Inductive printed : Type :=
| PrintText (text : string)
| PrintError (e : exn).

Inductive outcome : Type :=
| Return (output : string)
| Exit (code : Z)
| Raise (e : exn).

(** The environment of the child: [PATH] with [":" + SNAP] appended. *)
Definition child_env (sys : system) (path snap : string)
  : string -> option string :=
  fun key => if String.eqb key "PATH" then Some (path ++ ":" ++ snap)
             else environ sys key.

(** [run] with its arguments [args] and [die], lines 31-50. *)
Definition run (sys : system) (args : list string) (die : bool)
  : list printed * outcome :=
  match environ sys "PATH" with
  | None => ([], Raise (KeyError "PATH"))
  | Some path =>
      match environ sys "SNAP" with
      | None => ([], Raise (KeyError "SNAP"))
      | Some snap =>
          match subprocess_run sys args (child_env sys path snap) with
          | None => ([], Raise SpawnError)
          | Some result =>
              if Z.eqb (returncode result) 0 then
                match decode sys (stdout result) with
                | Some output => ([], Return output)
                | None => ([], Raise UnicodeDecodeError)
                end
              else if die then
                match stderr result with
                | EmptyString =>
                    ([PrintError (CalledProcessError (returncode result))],
                     Exit 1)
                | _ =>
                    match decode sys (stderr result) with
                    | Some text =>
                        ([PrintText text;
                          PrintError (CalledProcessError (returncode result))],
                         Exit 1)
                    | None => ([], Raise UnicodeDecodeError)
                    end
                end
              else ([], Raise (CalledProcessError (returncode result)))
          end
      end
  end.

(** The module-level [kubeconfig] of line 14, for the environment the
    module is loaded in: [expandvars] leaves an unset variable as typed. *)
Definition kubeconfig (import_environ : string -> option string) : string :=
  "--kubeconfig="
  ++ match import_environ "SNAP_DATA" with
     | Some dir => dir
     | None => "${SNAP_DATA}"
     end
  ++ "/credentials/client.config".

(** [kubectl_get(cmd, namespace="--all-namespaces")], lines 111-115. *)
Definition kubectl_get (sys : system) (kubeconfig cmd namespace : string)
  : list printed * outcome :=
  if String.eqb namespace "--all-namespaces"
  then run sys ["kubectl"; kubeconfig; "get"; cmd; "--all-namespaces"] false
  else run sys ["kubectl"; kubeconfig; "get"; cmd; "-n"; namespace] false.

(** [kubectl_get_clusterroles()], lines 118-121. *)
Definition kubectl_get_clusterroles (sys : system) (kubeconfig : string)
  : list printed * outcome :=
  run sys ["kubectl"; kubeconfig; "get"; "clusterroles"; "--show-kind";
           "--no-headers"] false.

End Process.

(** * Properties *)

Import PyStr Addons Readiness Spec.

(** ** Strings *)

Lemma mem_In (x : string) (xs : list string) : mem x xs = true <-> In x xs.
Proof.
  unfold mem. rewrite existsb_exists. split.
  - intros [y [Hy He]]. apply String.eqb_eq in He. now subst.
  - intros H. exists x. split; [assumption | apply String.eqb_refl].
Qed.

Lemma mem_false_In (x : string) (xs : list string) :
  mem x xs = false <-> ~ In x xs.
Proof.
  rewrite <- mem_In. destruct (mem x xs); split; intros; congruence.
Qed.

Lemma split_colon_nonempty (s : string) : split_colon s <> [].
Proof.
  destruct s as [|c s]; simpl; [discriminate|].
  destruct (Ascii.eqb c ":"); [discriminate|].
  destruct (split_colon s); discriminate.
Qed.

Lemma split_colon_cons (s : string) :
  split_colon s = hd EmptyString (split_colon s) :: tl (split_colon s).
Proof.
  pose proof (split_colon_nonempty s) as H.
  destruct (split_colon s); [congruence | reflexivity].
Qed.

Lemma unpack_split_colon (s : string) :
  unpack (split_colon s)
  = Some (hd EmptyString (split_colon s), tl (split_colon s)).
Proof. rewrite split_colon_cons at 1. reflexivity. Qed.

(** Joining the pieces with colons gives the token back. *)
Lemma split_colon_concat (s : string) :
  String.concat ":" (split_colon s) = s.
Proof.
  induction s as [|c s IH]; [reflexivity|].
  simpl. destruct (Ascii.eqb c ":") eqn:E.
  - apply Ascii.eqb_eq in E. subst c.
    rewrite (split_colon_cons s) in *. simpl in *. now rewrite IH.
  - rewrite (split_colon_cons s) in *.
    destruct (tl (split_colon s)); simpl in *; now rewrite IH.
Qed.

(** No piece holds a colon. *)
Lemma split_colon_pieces (s : string) :
  Forall (fun w => count_colons w = O) (split_colon s).
Proof.
  induction s as [|c s IH]; simpl.
  - constructor; [reflexivity | constructor].
  - destruct (Ascii.eqb c ":") eqn:E.
    + constructor; [reflexivity | assumption].
    + rewrite (split_colon_cons s) in *. inversion IH; subst.
      constructor; [simpl; now rewrite E | assumption].
Qed.

(** One piece more than there are colons. *)
Lemma split_colon_length (s : string) :
  List.length (split_colon s) = S (count_colons s).
Proof.
  induction s as [|c s IH]; [reflexivity|].
  simpl. destruct (Ascii.eqb c ":").
  - simpl. now rewrite IH.
  - rewrite (split_colon_cons s) in *. simpl in *. exact IH.
Qed.

Lemma split_colon_plain (a : string) :
  count_colons a = O -> split_colon a = [a].
Proof.
  induction a as [|c a IH]; [reflexivity|].
  simpl. destruct (Ascii.eqb c ":"); [discriminate|].
  simpl. intros H. now rewrite (IH H).
Qed.

Lemma split_colon_app (a b : string) :
  count_colons a = O ->
  split_colon (a ++ ":" ++ b) = a :: split_colon b.
Proof.
  induction a as [|c a IH]; [reflexivity|].
  intros H. simpl in H.
  change (String c a ++ ":" ++ b) with (String c (a ++ ":" ++ b)).
  cbn [split_colon].
  destruct (Ascii.eqb c ":"); [discriminate|].
  now rewrite (IH H).
Qed.

Lemma count_colons_has_colon (s : string) :
  count_colons s <> O <-> tl (split_colon s) <> [].
Proof.
  pose proof (split_colon_length s) as L.
  rewrite (split_colon_cons s) in L. simpl in L.
  destruct (tl (split_colon s)); simpl in L; split; intros; try lia; congruence.
Qed.

Lemma prefix_app (p s : string) :
  prefix p s = true <-> exists post, s = p ++ post.
Proof.
  revert s. induction p as [|a p IH]; intros s.
  - destruct s; simpl; split; eauto.
  - destruct s as [|b s]; simpl.
    + split; [discriminate | intros [post H]; discriminate].
    + destruct (ascii_dec a b) as [->|Hne].
      * rewrite IH. split; intros [post H]; exists post.
        -- now rewrite H.
        -- now inversion H.
      * split; [discriminate | intros [post H]; inversion H; congruence].
Qed.

(** [contains] is the substring test. *)
Lemma contains_spec (sub s : string) :
  contains sub s = true <-> exists pre post, s = pre ++ sub ++ post.
Proof.
  induction s as [|c s IH].
  - cbn [contains]. rewrite orb_false_r, prefix_app. split.
    + intros [post H]. now exists EmptyString, post.
    + intros [pre [post H]]. destruct pre; [now exists post | discriminate].
  - cbn [contains]. rewrite orb_true_iff, prefix_app, IH. split.
    + intros [[post H] | [pre [post H]]].
      * now exists EmptyString, post.
      * exists (String c pre), post. simpl. now rewrite H.
    + intros [pre [post H]]. destruct pre as [|c' pre].
      * left. now exists post.
      * right. exists pre, post. simpl in H. now inversion H.
Qed.

Lemma glob_literal_char (p : ascii) (pat : string) (c : ascii) (n : string) :
  Ascii.eqb p "*" = false ->
  glob_match (String p pat) (String c n) = Ascii.eqb p c && glob_match pat n.
Proof. intros H. cbn [glob_match]. now rewrite H. Qed.

Lemma glob_sh (n : string) : glob_match ".sh" n = true <-> n = ".sh".
Proof.
  split; [|intros ->; reflexivity].
  intros H.
  do 3 (destruct n as [|? n]; [discriminate|];
        rewrite glob_literal_char in H by reflexivity;
        apply andb_true_iff in H; destruct H as [Hc H];
        apply Ascii.eqb_eq in Hc; subst).
  destruct n; [reflexivity | discriminate].
Qed.

Lemma glob_star_sh (n : string) :
  glob_match "*.sh" n = true <-> exists x, n = x ++ ".sh".
Proof.
  induction n as [|c n IH].
  - split; [discriminate | intros [[|c x] H]; simpl in H; discriminate].
  - change (glob_match "*.sh" (String c n))
      with (glob_match ".sh" (String c n) || glob_match "*.sh" n).
    rewrite orb_true_iff, glob_sh, IH. split.
    + intros [H | [x H]].
      * exists EmptyString. exact H.
      * exists (String c x). simpl. now rewrite H.
    + intros [[|c' x] H]; simpl in H.
      * now left.
      * right. exists x. now inversion H.
Qed.

(** The names [enable.*.sh] selects. *)
Lemma glob_enable (f : string) :
  glob_match "enable.*.sh" f = true <-> exists x, f = "enable." ++ x ++ ".sh".
Proof.
  split.
  - intros H.
    do 7 (destruct f as [|? f]; [discriminate|];
          rewrite glob_literal_char in H by reflexivity;
          apply andb_true_iff in H; destruct H as [Hc H];
          apply Ascii.eqb_eq in Hc; subst).
    apply glob_star_sh in H. destruct H as [x ->]. now exists x.
  - intros [x ->].
    change ("enable." ++ x ++ ".sh") with
      (String "e" (String "n" (String "a" (String "b" (String "l"
         (String "e" (String "." (x ++ ".sh")))))))).
    do 7 (rewrite glob_literal_char by reflexivity; rewrite Ascii.eqb_refl;
          cbn [andb]).
    apply glob_star_sh. now exists x.
Qed.

Lemma rfind_dot_sh (a : string) :
  rfind_dot (a ++ ".sh") = Some (String.length a).
Proof.
  induction a as [|c a IH]; [reflexivity|].
  simpl. now rewrite IH.
Qed.

Lemma drop_length_app (a b : string) : drop (String.length a) (a ++ b) = b.
Proof. induction a as [|c a IH]; simpl; [now destruct b | exact IH]. Qed.

Lemma take_length_app (a b : string) : take (String.length a) (a ++ b) = a.
Proof.
  induction a as [|c a IH]; simpl; [now destruct b | now rewrite IH].
Qed.

Lemma length_app (a b : string) :
  String.length (a ++ b) = (String.length a + String.length b)%nat.
Proof. induction a as [|c a IH]; simpl; [reflexivity | now rewrite IH]. Qed.

(** Dropping the suffix of a script name leaves what comes before [.sh]. *)
Lemma with_suffix_empty_sh (a : string) :
  a <> EmptyString -> with_suffix_empty (a ++ ".sh") = a.
Proof.
  intros Ha. unfold with_suffix_empty, suffix.
  rewrite rfind_dot_sh, length_app.
  assert (0 < String.length a)%nat as Hlen
    by (destruct a; [congruence | simpl; lia]).
  replace ((0 <? String.length a)%nat) with true
    by (symmetry; apply Nat.ltb_lt; lia).
  replace ((String.length a <? String.length a + String.length ".sh" - 1)%nat)
    with true by (symmetry; apply Nat.ltb_lt; simpl; lia).
  cbn [andb]. rewrite drop_length_app.
  replace (String.length a + String.length ".sh" - String.length ".sh")%nat
    with (String.length a) by lia.
  apply take_length_app.
Qed.

Lemma existing_name_of_script (x : string) :
  drop 7 (with_suffix_empty ("enable." ++ x ++ ".sh")) = x.
Proof.
  assert (with_suffix_empty (("enable." ++ x) ++ ".sh") = "enable." ++ x) as H
    by (apply with_suffix_empty_sh; discriminate).
  simpl in *. rewrite H. reflexivity.
Qed.

(** ** The existing-addon set *)

Lemma existing_names_spec (listing : list string) (x : string) :
  In x (existing_names listing) <-> In ("enable." ++ x ++ ".sh") listing.
Proof.
  unfold existing_names. rewrite in_map_iff. split.
  - intros [f [Hx Hf]]. apply filter_In in Hf. destruct Hf as [Hin Hg].
    apply glob_enable in Hg. destruct Hg as [y ->].
    rewrite existing_name_of_script in Hx. now subst.
  - intros H. exists ("enable." ++ x ++ ".sh"). split.
    + apply existing_name_of_script.
    + apply filter_In. split; [assumption|]. apply glob_enable. now exists x.
Qed.

(** C9 (amended): for every action, enable and disable alike, the set of
    existing addons that [xable] resolves against is derived from the files
    of the actions directory matching [enable.*.sh]: it holds [x] exactly
    when the file [enable.<x>.sh] is listed, that is, the names are obtained
    by stripping the prefix [enable.] and the suffix [.sh]. *)
Theorem existing_addons_from_enable_scripts :
  forall (action : string) (listing s : list string),
    is_existing_addons listing s ->
    NoDup s /\ forall x, In x s <-> existing_for "enable" listing x.
Proof.
  intros action listing s [Hnd Hs]. split; [assumption|].
  intros x. unfold existing_for. rewrite Hs. apply existing_names_spec.
Qed.

Lemma existing_addons_from_enable_scripts_witness :
  is_existing_addons ["enable.dns.sh"; "disable.dns.sh"; "enable.sh"] ["dns"]
  /\ NoDup ["dns"]
  /\ forall x,
      In x ["dns"]
      <-> existing_for "enable" ["enable.dns.sh"; "disable.dns.sh"; "enable.sh"] x.
Proof.
  assert (is_existing_addons
            ["enable.dns.sh"; "disable.dns.sh"; "enable.sh"] ["dns"]) as H.
  { split.
    - constructor; [intros []|constructor].
    - intros x. vm_compute. tauto. }
  split; [exact H|].
  exact (existing_addons_from_enable_scripts
           "disable" ["enable.dns.sh"; "disable.dns.sh"; "enable.sh"] ["dns"] H).
Defined.

(** C9 as stated fails for disable: with only [disable.foo.sh] beside
    [enable.dns.sh] in the actions directory the set is [{dns}], and it does
    not hold [foo]. *)
Lemma existing_addons_disable_counterexample :
  is_existing_addons ["enable.dns.sh"; "disable.foo.sh"] ["dns"]
  /\ ~ (forall x,
         In x ["dns"]
         <-> existing_for "disable" ["enable.dns.sh"; "disable.foo.sh"] x).
Proof.
  split.
  - split.
    + constructor; [intros []|constructor].
    + intros x. vm_compute. tauto.
  - intros H. destruct (H "foo") as [_ H2].
    assert (In "foo" ["dns"]) as Hin by (apply H2; vm_compute; tauto).
    destruct Hin as [Heq|[]]. discriminate.
Qed.

(** ** Mode selection and the idempotency gate *)

Lemma should_skip_spec (addon : string) (xabled_addons : list string) :
  should_skip addon xabled_addons = true
  <-> In addon xabled_addons /\ addon <> "kubeflow".
Proof.
  unfold should_skip. rewrite andb_true_iff, mem_In, negb_true_iff.
  rewrite String.eqb_neq. reflexivity.
Qed.

Lemma multi_mode_spec (existing_addons addons : list string) :
  multi_mode existing_addons addons = true
  <-> Forall (fun a => In (hd EmptyString (split_colon a)) existing_addons) addons
      /\ (1 < List.length addons)%nat.
Proof.
  unfold multi_mode. rewrite andb_true_iff, forallb_forall, Forall_forall.
  rewrite Nat.ltb_lt. split; intros [H1 H2]; (split; [|assumption]);
    intros a Ha; apply mem_In; auto.
Qed.

(** The loop of multi-addon mode never raises: every token yields one event. *)
Lemma xable_each_map (ext : collaborators) (action : string)
    (xabled_addons addons : list string) :
  xable_each ext action xabled_addons addons
  = (map (fun token =>
            if should_skip token xabled_addons
            then Echo (already_message token action) false
            else Run (script ext action (hd EmptyString (split_colon token))
                        :: tl (split_colon token)))
         addons,
     Returned).
Proof.
  induction addons as [|a addons IH]; [reflexivity|].
  cbn [xable_each map]. rewrite IH, unpack_split_colon.
  destruct (should_skip a xabled_addons); reflexivity.
Qed.

Lemma xable_each_runs (ext : collaborators) (action : string)
    (xabled_addons addons : list string) :
  runs (fst (xable_each ext action xabled_addons addons))
  = map (fun token => script ext action (hd EmptyString (split_colon token))
                        :: tl (split_colon token))
        (filter (fun token => negb (should_skip token xabled_addons)) addons).
Proof.
  rewrite xable_each_map. cbn [fst]. unfold runs.
  induction addons as [|a addons IH]; [reflexivity|].
  cbn [map filter flat_map].
  destruct (should_skip a xabled_addons); cbn [negb app map]; now rewrite IH.
Qed.

(** Single-addon mode on a non-empty request, case by case. *)
Lemma xable_one_cases (ext : collaborators) (action : string)
    (existing_addons xabled_addons : list string) (first : string)
    (rest : list string) :
  let name := hd EmptyString (split_colon first) in
  let args := tl (split_colon first) in
  xable_one ext action existing_addons (first :: rest) xabled_addons
  = if should_skip name xabled_addons then
      ([Echo (already_message name action) false], Exited 0)
    else if negb (mem name existing_addons) then
      ([Secho (not_found_message name) (Some "red") true;
        Echo (available_message existing_addons) true],
       Exited 1)
    else if truthy args && truthy rest then
      ([Secho (ambiguous_message ext action) None true], Exited 1)
    else
      ([Run (script ext action name :: (args ++ rest)%list)], Returned).
Proof.
  intros name args. unfold xable_one. rewrite unpack_split_colon.
  fold name args.
  destruct (should_skip name xabled_addons); [reflexivity|].
  destruct (negb (mem name existing_addons)); [reflexivity|].
  destruct args as [|a args]; cbn [truthy andb app]; [reflexivity|].
  destruct rest as [|r rest]; cbn [truthy]; [|reflexivity].
  now rewrite app_nil_r.
Qed.

Lemma append_nil_r (s : string) : s ++ "" = s.
Proof. induction s as [|c s IH]; simpl; [reflexivity | now rewrite IH]. Qed.

Lemma append_assoc (a b c : string) : (a ++ b) ++ c = a ++ b ++ c.
Proof. induction a as [|x a IH]; simpl; [reflexivity | now rewrite IH]. Qed.

(** Every joined element shows in the joined text. *)
Lemma concat_contains (sep : string) (l : list string) (x : string) :
  In x l -> exists pre post, String.concat sep l = pre ++ x ++ post.
Proof.
  induction l as [|a l IH]; [intros []|].
  intros [->|Hin].
  - destruct l as [|b l].
    + exists EmptyString, EmptyString. simpl. now rewrite append_nil_r.
    + exists EmptyString, (sep ++ String.concat sep (b :: l)). reflexivity.
  - destruct l as [|b l]; [destruct Hin|].
    destruct (IH Hin) as [pre [post H]].
    exists (a ++ sep ++ pre), post.
    change (String.concat sep (a :: b :: l))
      with (a ++ sep ++ String.concat sep (b :: l)).
    rewrite H. now rewrite !append_assoc.
Qed.

Lemma available_message_contains (existing_addons : list string) (x : string) :
  In x existing_addons ->
  contains x (available_message existing_addons) = true.
Proof.
  intros Hin. apply contains_spec. unfold available_message.
  destruct (concat_contains (nl ++ " - ") existing_addons x Hin)
    as [pre [post H]].
  exists ("The available addons are:" ++ nl ++ " - " ++ pre), post.
  rewrite H. now rewrite !append_assoc.
Qed.

(** ** Claims about [xable] *)



(** C2, evaluated where the code departs from it: the gate itself is
    membership in the already-xabled list together with not being kubeflow,
    and on the name [dns] of the token [dns:value1] it says skip; the loop
    of multi-addon mode tests the token as typed, so with [dns] already
    enabled it runs [enable.dns.sh value1] all the same, while single-addon
    mode, which tests the name, skips the same token. *)
Theorem multi_mode_gate_tests_raw_token :
  (forall name S, should_skip name S = true <-> In name S /\ name <> "kubeflow")
  /\ should_skip_name "dns:value1" ["dns"] = true
  /\ multi_mode ["dns"; "storage"] ["dns:value1"; "storage"] = true
  /\ xable demo "enable" ["dns"; "storage"] ["dns:value1"; "storage"] ["dns"]
     = ([Run ["actions/enable.dns.sh"; "value1"];
         Run ["actions/enable.storage.sh"]],
        Returned)
  /\ xable demo "enable" ["dns"; "storage"] ["dns:value1"] ["dns"]
     = ([Echo "Addon dns is already enabled." false], Exited 0).
Proof.
  split; [exact should_skip_spec|].
  repeat split; reflexivity.
Qed.

(** C3 (amended): for every single-token request whose addon name is not in
    the existing-addon set and is not stopped by the idempotency gate (the
    name is not already xabled, or it is kubeflow), resolution fails with
    NotFoundError and exit status 1, and the guidance lists the members of
    the existing set in the set's iteration order, unsorted; every member
    shows in that text. *)
Theorem not_found_lists_existing :
  forall (ext : collaborators) (action : string)
         (existing_addons xabled_addons : list string) (token : string),
    let name := hd EmptyString (split_colon token) in
    ~ In name existing_addons ->
    should_skip name xabled_addons = false ->
    xable ext action existing_addons [token] xabled_addons
    = ([Secho (not_found_message name) (Some "red") true;
        Echo (available_message existing_addons) true],
       Exited 1)
    /\ forall x, In x existing_addons ->
                 contains x (available_message existing_addons) = true.
Proof.
  intros ext action existing_addons xabled_addons token name Hnot Hskip.
  split; [|intros x; apply available_message_contains].
  unfold xable.
  replace (multi_mode existing_addons [token]) with false
    by (unfold multi_mode; cbn [List.length Nat.ltb Nat.leb];
        now rewrite andb_false_r).
  rewrite xable_one_cases. fold name. rewrite Hskip.
  apply mem_false_In in Hnot. now rewrite Hnot.
Qed.

Lemma not_found_lists_existing_witness :
  xable demo "enable" ["storage"; "dns"] ["foo:bar"] ["dns"]
  = ([Secho "Addon `foo` not found." (Some "red") true;
      Echo (available_message ["storage"; "dns"]) true],
     Exited 1)
  /\ forall x, In x ["storage"; "dns"] ->
               contains x (available_message ["storage"; "dns"]) = true.
Proof.
  apply (not_found_lists_existing demo "enable" ["storage"; "dns"] ["dns"]
           "foo:bar").
  - simpl. intros [H|[H|[]]]; discriminate.
  - reflexivity.
Defined.

(** C3 as stated fails twice: the set is listed in iteration order, here
    storage before dns, not sorted; and a name that is already xabled is
    skipped with exit status 0 before its existence is looked at. *)
Lemma not_found_counterexample :
  (~ In "foo" ["storage"; "dns"]
   /\ xable demo "enable" ["storage"; "dns"] ["foo"] []
      <> not_found_sorted ["storage"; "dns"] "foo")
  /\ (~ In "foo" ["dns"]
      /\ xable demo "enable" ["dns"] ["foo"] ["foo"]
         = ([Echo "Addon foo is already enabled." false], Exited 0)
      /\ xable demo "enable" ["dns"] ["foo"] ["foo"]
         <> not_found_sorted ["dns"] "foo").
Proof.
  split; [split | split; [|split]].
  - simpl. intros [H|[H|[]]]; discriminate.
  - vm_compute. intros H. discriminate.
  - simpl. intros [H|[]]; discriminate.
  - reflexivity.
  - vm_compute. intros H. discriminate.
Qed.

Lemma truthy_true {A : Type} (xs : list A) : xs <> [] -> truthy xs = true.
Proof. destruct xs; [congruence | reflexivity]. Qed.

(** C4 (amended): a single-addon request whose first token carries a
    colon-value and which has trailing tokens never dispatches a script.  It
    fails with AmbiguousArgsError and exit status 1 when the addon name
    passes the two earlier checks, the idempotency gate and the existence
    test; a name the gate stops ends the run with the skip message and exit
    status 0, and a name that does not exist ends it with NotFoundError. *)
Theorem ambiguous_args_after_gate_and_existence :
  forall (ext : collaborators) (action : string)
         (existing_addons xabled_addons : list string)
         (first : string) (rest : list string),
    let name := hd EmptyString (split_colon first) in
    let out := xable ext action existing_addons (first :: rest) xabled_addons in
    multi_mode existing_addons (first :: rest) = false ->
    count_colons first <> O ->
    rest <> [] ->
    runs (fst out) = []
    /\ (should_skip name xabled_addons = false ->
        mem name existing_addons = true ->
        out = ([Secho (ambiguous_message ext action) None true], Exited 1))
    /\ (should_skip name xabled_addons = true ->
        out = ([Echo (already_message name action) false], Exited 0))
    /\ (should_skip name xabled_addons = false ->
        mem name existing_addons = false ->
        out = ([Secho (not_found_message name) (Some "red") true;
                Echo (available_message existing_addons) true],
               Exited 1)).
Proof.
  intros ext action existing_addons xabled_addons first rest name out
         Hm Hcolon Hrest.
  assert (out
          = if should_skip name xabled_addons then
              ([Echo (already_message name action) false], Exited 0)
            else if negb (mem name existing_addons) then
              ([Secho (not_found_message name) (Some "red") true;
                Echo (available_message existing_addons) true],
               Exited 1)
            else ([Secho (ambiguous_message ext action) None true], Exited 1))
    as Hout.
  { unfold out, xable. rewrite Hm, xable_one_cases. fold name.
    apply count_colons_has_colon in Hcolon.
    now rewrite (truthy_true _ Hcolon), (truthy_true _ Hrest). }
  rewrite Hout.
  destruct (should_skip name xabled_addons);
    destruct (mem name existing_addons); cbn [negb];
    repeat split; intros; try reflexivity; discriminate.
Qed.

Lemma ambiguous_args_after_gate_and_existence_witness :
  xable demo "enable" ["dns"] ["dns:val"; "--flag"] []
  = ([Secho (ambiguous_message demo "enable") None true], Exited 1)
  /\ runs (fst (xable demo "enable" ["dns"] ["dns:val"; "--flag"] [])) = [].
Proof.
  destruct (ambiguous_args_after_gate_and_existence
              demo "enable" ["dns"] [] "dns:val" ["--flag"])
    as [Hruns [Hamb _]].
  - reflexivity.
  - simpl. lia.
  - discriminate.
  - split; [apply Hamb; reflexivity | exact Hruns].
Defined.

(** C4 as stated fails: with a colon-value and a trailing flag, a name that
    does not exist gives NotFoundError, and a name already enabled gives the
    skip with exit status 0; neither is AmbiguousArgsError. *)
Lemma ambiguous_args_counterexample :
  (multi_mode ["dns"] ["foo:val"; "--flag"] = false
   /\ xable demo "enable" ["dns"] ["foo:val"; "--flag"] []
      = ([Secho "Addon `foo` not found." (Some "red") true;
          Echo (available_message ["dns"]) true],
         Exited 1)
   /\ xable demo "enable" ["dns"] ["foo:val"; "--flag"] []
      <> ([Secho (ambiguous_message demo "enable") None true], Exited 1))
  /\ (multi_mode ["dns"] ["dns:val"; "--flag"] = false
      /\ xable demo "enable" ["dns"] ["dns:val"; "--flag"] ["dns"]
         = ([Echo "Addon dns is already enabled." false], Exited 0)
      /\ xable demo "enable" ["dns"] ["dns:val"; "--flag"] ["dns"]
         <> ([Secho (ambiguous_message demo "enable") None true], Exited 1)).
Proof.
  repeat split; try reflexivity; vm_compute; intros H; discriminate.
Qed.



(** C10: a token is split on every colon, not only on the first: the pieces
    hold no colon, there is one more of them than there are colons, and
    joining them with colons gives the token back.  The first piece is the
    addon name and all the others are positional arguments, in single-addon
    mode and in multi-addon mode alike; [name:a:b] gives the name with the
    two arguments [a] and [b]. *)
Theorem token_split_on_every_colon :
  forall (ext : collaborators) (action : string)
         (existing_addons xabled_addons : list string) (token : string),
    let parts := split_colon token in
    let name := hd EmptyString parts in
    (String.concat ":" parts = token
     /\ Forall (fun w => count_colons w = O) parts
     /\ List.length parts = S (count_colons token))
    /\ (should_skip name xabled_addons = false ->
        mem name existing_addons = true ->
        xable ext action existing_addons [token] xabled_addons
        = ([Run (script ext action name :: tl parts)], Returned))
    /\ (forall before after,
          multi_mode existing_addons (before ++ token :: after)%list = true ->
          should_skip token xabled_addons = false ->
          In (script ext action name :: tl parts)
             (runs (fst (xable ext action existing_addons
                           (before ++ token :: after)%list xabled_addons))))
    /\ (forall addon a b,
          count_colons addon = O -> count_colons a = O -> count_colons b = O ->
          split_colon (addon ++ ":" ++ a ++ ":" ++ b) = [addon; a; b]).
Proof.
  intros ext action existing_addons xabled_addons token parts name.
  split; [|split; [|split]].
  - split; [apply split_colon_concat|].
    split; [apply split_colon_pieces | apply split_colon_length].
  - intros Hskip Hmem. unfold xable.
    replace (multi_mode existing_addons [token]) with false
      by (unfold multi_mode; cbn [List.length Nat.ltb Nat.leb];
          now rewrite andb_false_r).
    rewrite xable_one_cases. fold parts name.
    rewrite Hskip, Hmem. cbn [negb truthy].
    now rewrite andb_false_r, app_nil_r.
  - intros before after Hm Hskip. unfold xable. rewrite Hm, xable_each_runs.
    apply in_map_iff. exists token. split; [reflexivity|].
    apply filter_In. split; [apply in_elt | now rewrite Hskip].
  - intros addon a b Ha Hb Hc.
    rewrite (split_colon_app addon _ Ha), (split_colon_app a _ Hb).
    now rewrite (split_colon_plain b Hc).
Qed.

Lemma token_split_on_every_colon_witness :
  xable demo "enable" ["dns"] ["dns:a:b"] []
  = ([Run ["actions/enable.dns.sh"; "a"; "b"]], Returned)
  /\ In ["actions/enable.dns.sh"; "a"; "b"]
        (runs (fst (xable demo "enable" ["dns"; "storage"]
                      ["storage"; "dns:a:b"] [])))
  /\ split_colon "dns:a:b" = ["dns"; "a"; "b"].
Proof.
  destruct (token_split_on_every_colon demo "enable" ["dns"] [] "dns:a:b")
    as [_ [Hone [_ Hsplit]]].
  destruct (token_split_on_every_colon
              demo "enable" ["dns"; "storage"] [] "dns:a:b")
    as [_ [_ [Heach _]]].
  split; [|split].
  - apply Hone; reflexivity.
  - apply (Heach ["storage"] []); reflexivity.
  - apply (Hsplit "dns" "a" "b"); reflexivity.
Defined.

(** ** Readiness *)

Lemma Qgt_bool_true (a b : Q) : Qgt_bool a b = true <-> (b < a)%Q.
Proof.
  unfold Qgt_bool. rewrite negb_true_iff. split.
  - intros H. apply Qnot_le_lt. intros Hle.
    apply Qle_bool_iff in Hle. congruence.
  - intros H. destruct (Qle_bool a b) eqn:E; [|reflexivity].
    apply Qle_bool_iff in E. exfalso. exact (Qlt_not_le _ _ H E).
Qed.

Lemma Qgt_bool_false (a b : Q) : Qgt_bool a b = false <-> (a <= b)%Q.
Proof.
  unfold Qgt_bool. rewrite negb_false_iff. apply Qle_bool_iff.
Qed.

(** [is_cluster_ready] lets no [Exception] out. *)
Lemma is_cluster_ready_raises (kubectl_get : probe) (e : pyexn) :
  is_cluster_ready kubectl_get = Raise e -> is_Exception e = false.
Proof.
  unfold is_cluster_ready.
  destruct (kubectl_get "all") as [s|e1].
  - destruct (kubectl_get "nodes") as [n|e2].
    + destruct (contains "Ready" n && contains "service/kubernetes" s);
        discriminate.
    + destruct (is_Exception e2) eqn:E; [discriminate|].
      intros H. inversion H. now subst.
  - destruct (is_Exception e1) eqn:E; [discriminate|].
    intros H. inversion H. now subst.
Qed.

(** C6: one sample reports ready exactly when the nodes listing contains
    [Ready] and the services listing contains [service/kubernetes]; with
    both listings at hand it reports a plain yes or no; and when either
    probe call raises an error, the sample reports not ready instead of
    failing. *)
Theorem is_cluster_ready_iff_both_signals :
  forall (kubectl_get : probe),
    (forall service_output node_output,
        kubectl_get "all" = Ok service_output ->
        kubectl_get "nodes" = Ok node_output ->
        (is_cluster_ready kubectl_get = Ok true
         <-> (exists a b, node_output = a ++ "Ready" ++ b)
             /\ (exists a b, service_output = a ++ "service/kubernetes" ++ b))
        /\ (is_cluster_ready kubectl_get <> Ok true ->
            is_cluster_ready kubectl_get = Ok false))
    /\ (forall e,
          is_Exception e = true ->
          kubectl_get "all" = Raise e
          \/ (exists service_output,
                 kubectl_get "all" = Ok service_output
                 /\ kubectl_get "nodes" = Raise e) ->
          is_cluster_ready kubectl_get = Ok false).
Proof.
  intros kubectl_get. split.
  - intros service_output node_output Hs Hn.
    unfold is_cluster_ready. rewrite Hs, Hn.
    rewrite <- !contains_spec.
    destruct (contains "Ready" node_output);
      destruct (contains "service/kubernetes" service_output);
      cbn [andb]; split; try tauto; try congruence;
      split; intros; try reflexivity; try discriminate;
      destruct H; discriminate.
  - intros e He [H | [s [Hs Hn]]]; unfold is_cluster_ready.
    + now rewrite H, He.
    + now rewrite Hs, Hn, He.
Qed.

Lemma is_cluster_ready_iff_both_signals_witness :
  is_cluster_ready
    (fun cmd => if String.eqb cmd "all"
                then Ok "default service/kubernetes ClusterIP"
                else Ok "node1 Ready master")
  = Ok true
  /\ is_cluster_ready
       (fun cmd => if String.eqb cmd "all"
                   then Ok "default service/kubernetes ClusterIP"
                   else Raise CalledProcessError)
     = Ok false.
Proof.
  split.
  - destruct (is_cluster_ready_iff_both_signals
                (fun cmd => if String.eqb cmd "all"
                            then Ok "default service/kubernetes ClusterIP"
                            else Ok "node1 Ready master")) as [H _].
    destruct (H "default service/kubernetes ClusterIP" "node1 Ready master"
                eq_refl eq_refl) as [Hiff _].
    apply Hiff. split.
    + now exists "node1 ", " master".
    + now exists "default ", " ClusterIP".
  - destruct (is_cluster_ready_iff_both_signals
                (fun cmd => if String.eqb cmd "all"
                            then Ok "default service/kubernetes ClusterIP"
                            else Raise CalledProcessError)) as [_ H].
    apply (H CalledProcessError); [reflexivity|].
    right. now exists "default service/kubernetes ClusterIP".
Defined.

(** One more turn of the loop after a sample that is not ready. *)
Lemma poll_step_not_ready (world : oracle) (timeout start_time : Q)
    (p : progress) (fuel : nat) :
  (Qgt_bool timeout 0 = true ->
   Qgt_bool (clock world (reads p)) (start_time + timeout) = false) ->
  is_cluster_ready (sample world (samples p)) = Ok false ->
  poll world (S fuel) timeout start_time false p
  = poll world fuel timeout start_time false
      (sampled (if Qgt_bool timeout 0 then tick p else p)).
Proof.
  intros Hclock Hsample. cbn [poll].
  destruct (Qgt_bool timeout 0).
  - rewrite (Hclock eq_refl). cbn [orb]. cbn [tick samples].
    now rewrite Hsample.
  - cbn [orb]. now rewrite Hsample.
Qed.

(** [d] turns of the loop in which no sample is ready and no deadline has
    passed. *)
Lemma poll_not_ready_steps (world : oracle) (timeout start_time : Q) :
  forall (d j s : nat) (sl : list Q) (fuel : nat),
    (Qgt_bool timeout 0 = true ->
     forall i, (j <= i < j + d)%nat ->
               Qgt_bool (clock world i) (start_time + timeout) = false) ->
    (forall i, (s <= i < s + d)%nat ->
               is_cluster_ready (sample world i) = Ok false) ->
    poll world (d + fuel) timeout start_time false
         {| reads := j; samples := s; sleeps := sl |}
    = poll world fuel timeout start_time false
        {| reads := if Qgt_bool timeout 0 then (j + d)%nat else j;
           samples := (s + d)%nat;
           sleeps := sl |}.
Proof.
  induction d as [|d IH]; intros j s sl fuel Hclock Hsample.
  - cbn [Nat.add]. rewrite !Nat.add_0_r.
    now destruct (Qgt_bool timeout 0).
  - cbn [Nat.add]. rewrite poll_step_not_ready.
    + destruct (Qgt_bool timeout 0) eqn:Ht;
        unfold sampled, tick; cbn [reads samples sleeps].
      * rewrite IH.
        -- do 2 f_equal; lia.
        -- intros _ i Hi. apply Hclock; [reflexivity | lia].
        -- intros i Hi. apply Hsample. lia.
      * rewrite IH.
        -- do 2 f_equal; lia.
        -- discriminate.
        -- intros i Hi. apply Hsample. lia.
    + intros Ht. cbn [reads]. apply Hclock; [assumption | lia].
    + cbn [samples]. apply Hsample. lia.
Qed.

(** The first clock reading past the deadline. *)
Lemma first_expiry (world : oracle) (deadline : Q) :
  forall (n j : nat),
    (deadline < clock world (j + n))%Q ->
    exists d, (d <= n)%nat
              /\ (deadline < clock world (j + d))%Q
              /\ forall i, (j <= i < j + d)%nat -> (clock world i <= deadline)%Q.
Proof.
  induction n as [|n IH]; intros j H.
  - exists O. split; [lia|]. split; [assumption|]. intros i Hi. lia.
  - destruct (Qlt_le_dec deadline (clock world j)) as [Hlt|Hle].
    + exists O. split; [lia|]. rewrite Nat.add_0_r.
      split; [assumption|]. intros i Hi. lia.
    + destruct (IH (S j)) as [d [Hd [Hexp Hbefore]]].
      * now replace (S j + n)%nat with (j + S n)%nat by lia.
      * exists (S d). split; [lia|].
        replace (j + S d)%nat with (S j + d)%nat by lia.
        split; [assumption|].
        intros i Hi. destruct (Nat.eq_dec i j) as [->|Hne]; [assumption|].
        apply Hbefore. lia.
Qed.

(** More fuel does not change a result. *)
Lemma poll_more_fuel (world : oracle) (timeout start_time : Q) :
  forall (fuel : nat) (isReady : bool) (p : progress) r,
    poll world fuel timeout start_time isReady p = Some r ->
    forall fuel', (fuel <= fuel')%nat ->
                  poll world fuel' timeout start_time isReady p = Some r.
Proof.
  induction fuel as [|fuel IH]; intros isReady p r H fuel' Hle;
    [discriminate|].
  destruct fuel' as [|fuel']; [lia|].
  cbn [poll] in *.
  destruct (if Qgt_bool timeout 0
            then (Qgt_bool (clock world (reads p)) (start_time + timeout),
                  tick p)
            else (false, p)) as [expired p1].
  destruct (expired || isReady); [assumption|].
  destruct (is_cluster_ready (sample world (samples p1))) as [b|e].
  - apply (IH _ _ _ H). lia.
  - destruct (is_Exception e); [|assumption]. apply (IH _ _ _ H). lia.
Qed.

(** Without a deadline the loop never gives up: what it returns is [True]. *)
Lemma poll_no_deadline_true (world : oracle) (timeout start_time : Q) :
  Qgt_bool timeout 0 = false ->
  forall (fuel : nat) (isReady : bool) (p p' : progress) (r : bool),
    poll world fuel timeout start_time isReady p = Some (Ok r, p') ->
    r = true /\ reads p' = reads p.
Proof.
  intros Ht. induction fuel as [|fuel IH]; intros isReady p p' r H;
    [discriminate|].
  cbn [poll] in H. rewrite Ht in H. cbn [orb] in H.
  destruct isReady.
  - inversion H. now subst.
  - destruct (is_cluster_ready (sample world (samples p))) as [b|e].
    + destruct (IH _ _ _ _ H) as [Hr Hp]. now split.
    + destruct (is_Exception e); [|discriminate].
      destruct (IH _ _ _ _ H) as [Hr Hp]. now split.
Qed.

(** The loop never reaches its [time.sleep]. *)
Lemma poll_never_sleeps (world : oracle) (timeout start_time : Q) :
  forall (fuel : nat) (isReady : bool) (p p' : progress) r,
    poll world fuel timeout start_time isReady p = Some (r, p') ->
    sleeps p' = sleeps p.
Proof.
  induction fuel as [|fuel IH]; intros isReady p p' r H; [discriminate|].
  cbn [poll] in H.
  destruct (Qgt_bool timeout 0);
    match type of H with
    | context [?a || isReady] => destruct (a || isReady)
    end;
    try (inversion H; subst; reflexivity);
    match type of H with
    | context [is_cluster_ready ?k] =>
        destruct (is_cluster_ready k) as [b|e] eqn:E
    end;
    try (apply IH in H; exact H);
    rewrite (is_cluster_ready_raises _ _ E) in H;
    inversion H; subst; reflexivity.
Qed.

Lemma is_cluster_ready_signals (kubectl_get : probe)
    (service_output node_output : string) :
  kubectl_get "all" = Ok service_output ->
  kubectl_get "nodes" = Ok node_output ->
  (exists a b, node_output = a ++ "Ready" ++ b) ->
  (exists a b, service_output = a ++ "service/kubernetes" ++ b) ->
  is_cluster_ready kubectl_get = Ok true.
Proof.
  intros Hs Hn Hready Hsvc. unfold is_cluster_ready. rewrite Hs, Hn.
  apply contains_spec in Hready. apply contains_spec in Hsvc.
  now rewrite Hready, Hsvc.
Qed.

(** C7: timestamps are exact rationals and the clock is an oracle.
    (a) With a timeout above zero and no sample ever ready, once some clock
    reading lies past the deadline the poller returns [False]; it does so at
    the first reading for which more than the timeout has elapsed since the
    start, no earlier reading having exceeded it.
    (b) When the probe output of a sample holds both signals, the samples
    before it being not ready and (if there is a deadline) the deadline not
    having passed when that sample is taken, the poller returns [True] right
    after that sample, without taking another.
    (c) With a timeout of zero or less there is no deadline: the clock is
    not read again, the poller is still polling after any number of samples
    that were not ready, and the only value it ever returns is [True]. *)
Theorem wait_for_ready_deadline_and_success :
  forall (world : oracle) (wait_ready : bool) (timeout : Q),
    let start_time := clock world 0 in
    ((0 < timeout)%Q ->
     (forall n, is_cluster_ready (sample world n) = Ok false) ->
     (exists k, (1 <= k)%nat /\ (start_time + timeout < clock world k)%Q) ->
     exists k p,
       (1 <= k)%nat
       /\ (timeout < clock world k - start_time)%Q
       /\ (forall i, (1 <= i < k)%nat ->
                     (clock world i - start_time <= timeout)%Q)
       /\ reads p = S k
       /\ samples p = (k - 1)%nat
       /\ forall fuel, (k <= fuel)%nat ->
            wait_for_ready world fuel wait_ready timeout = Some (Ok false, p))
    /\ (forall n service_output node_output,
          (forall i, (i < n)%nat ->
                     is_cluster_ready (sample world i) = Ok false) ->
          sample world n "all" = Ok service_output ->
          sample world n "nodes" = Ok node_output ->
          (exists a b, node_output = a ++ "Ready" ++ b) ->
          (exists a b, service_output = a ++ "service/kubernetes" ++ b) ->
          ((timeout <= 0)%Q
           \/ forall i, (1 <= i <= S n)%nat ->
                        (clock world i <= start_time + timeout)%Q) ->
          exists p,
            samples p = S n
            /\ forall fuel, (n + 2 <= fuel)%nat ->
                 wait_for_ready world fuel wait_ready timeout
                 = Some (Ok true, p))
    /\ ((timeout <= 0)%Q ->
        (forall n,
            (forall i, (i < n)%nat ->
                       is_cluster_ready (sample world i) = Ok false) ->
            wait_for_ready world n wait_ready timeout = None)
        /\ (forall fuel r p,
              wait_for_ready world fuel wait_ready timeout = Some (Ok r, p) ->
              r = true /\ reads p = 1%nat)).
Proof.
  intros world wait_ready timeout start_time. split; [|split].
  - intros Hpos Hnever [k0 [Hk0 Hpast]].
    assert (Qgt_bool timeout 0 = true) as Ht by now apply Qgt_bool_true.
    destruct (first_expiry world (start_time + timeout) (k0 - 1) 1)
      as [d [_ [Hexp Hbefore]]].
    { now replace (1 + (k0 - 1))%nat with k0 by lia. }
    exists (S d), {| reads := S (S d); samples := d; sleeps := [] |}.
    split; [lia|]. split; [change (1 + d)%nat with (S d) in Hexp; lra|].
    split; [intros i Hi; specialize (Hbefore i ltac:(lia)); lra|].
    split; [reflexivity|]. split; [cbn [samples]; lia|].
    intros fuel Hfuel.
    apply (poll_more_fuel world timeout start_time (d + 1)); [|lia].
    rewrite poll_not_ready_steps.
    + rewrite Ht. cbn [poll]. rewrite Ht. cbn [reads].
      apply Qgt_bool_true in Hexp. rewrite Hexp. reflexivity.
    + intros _ i Hi. apply Qgt_bool_false. apply Hbefore. lia.
    + intros i _. apply Hnever.
  - intros n service_output node_output Hbefore Hs Hn Hready Hsvc Hclock.
    pose proof (is_cluster_ready_signals _ _ _ Hs Hn Hready Hsvc) as Hnow.
    assert (forall p0,
               poll world (n + 2) timeout start_time false
                    {| reads := 1; samples := 0; sleeps := [] |} = Some (Ok true, p0) ->
               forall fuel, (n + 2 <= fuel)%nat ->
                 wait_for_ready world fuel wait_ready timeout = Some (Ok true, p0))
      as Hfuel.
    { intros p0 Hp0 fuel Hle.
      now apply (poll_more_fuel world timeout start_time (n + 2)). }
    destruct (Qgt_bool timeout 0) eqn:Ht.
    + assert (forall i, (1 <= i <= S n)%nat ->
                        Qgt_bool (clock world i) (start_time + timeout) = false)
        as Hc.
      { intros i Hi. apply Qgt_bool_false.
        destruct Hclock as [Hno|Hc]; [|now apply Hc].
        apply Qgt_bool_true in Ht. lra. }
      eexists. split; [|apply Hfuel].
      2:{ rewrite poll_not_ready_steps.
          - rewrite Ht. cbn [poll]. rewrite Ht. cbn [reads].
            rewrite (Hc (1 + n)%nat) by lia. cbn [orb].
            unfold tick at 1. cbn [samples Nat.add]. rewrite Hnow.
            rewrite orb_true_r. reflexivity.
          - intros _ i Hi. apply Hc. lia.
          - intros i Hi. apply Hbefore. lia. }
      reflexivity.
    + eexists. split; [|apply Hfuel].
      2:{ rewrite poll_not_ready_steps.
          - rewrite Ht. cbn [poll]. rewrite Ht. cbn [orb samples Nat.add].
            rewrite Hnow. reflexivity.
          - intros H. rewrite Ht in H. discriminate.
          - intros i Hi. apply Hbefore. lia. }
      reflexivity.
  - intros Hno. assert (Qgt_bool timeout 0 = false) as Ht
      by now apply Qgt_bool_false.
    split.
    + intros n Hbefore. unfold wait_for_ready.
      replace n with (n + 0)%nat at 1 by lia.
      rewrite poll_not_ready_steps; [reflexivity | congruence |].
      intros i Hi. apply Hbefore. lia.
    + intros fuel r p H.
      apply (poll_no_deadline_true world timeout start_time Ht) in H.
      exact H.
Qed.

Lemma wait_for_ready_deadline_and_success_witness :
  (exists k p,
      (1 <= k)%nat
      /\ (3 < inject_Z (Z.of_nat k) - 0)%Q
      /\ (forall i, (1 <= i < k)%nat -> (inject_Z (Z.of_nat i) - 0 <= 3)%Q)
      /\ reads p = S k
      /\ samples p = (k - 1)%nat
      /\ forall fuel, (k <= fuel)%nat ->
           wait_for_ready
             {| clock := fun n => inject_Z (Z.of_nat n);
                sample := fun _ _ => Ok "" |}
             fuel true 3
           = Some (Ok false, p))
  /\ (exists p,
         samples p = 2%nat
         /\ forall fuel, (1 + 2 <= fuel)%nat ->
              wait_for_ready
                {| clock := fun n => inject_Z (Z.of_nat n);
                   sample := fun n cmd =>
                     if (n <? 1)%nat then Ok ""
                     else if String.eqb cmd "all"
                          then Ok "default service/kubernetes ClusterIP"
                          else Ok "node1 Ready master" |}
                fuel true 0
              = Some (Ok true, p)).
Proof.
  split.
  - destruct (wait_for_ready_deadline_and_success
                {| clock := fun n => inject_Z (Z.of_nat n);
                   sample := fun _ _ => Ok "" |} true 3) as [H _].
    apply H.
    + reflexivity.
    + intros n. reflexivity.
    + exists 4%nat. split; [lia | reflexivity].
  - destruct (wait_for_ready_deadline_and_success
                {| clock := fun n => inject_Z (Z.of_nat n);
                   sample := fun n cmd =>
                     if (n <? 1)%nat then Ok ""
                     else if String.eqb cmd "all"
                          then Ok "default service/kubernetes ClusterIP"
                          else Ok "node1 Ready master" |} true 0)
      as [_ [H _]].
    apply (H 1%nat "default service/kubernetes ClusterIP" "node1 Ready master").
    + intros i Hi. assert (i = O) as -> by lia. reflexivity.
    + reflexivity.
    + reflexivity.
    + now exists "node1 ", " master".
    + now exists "default ", " ClusterIP".
    + left. discriminate.
Defined.

(** C8, evaluated where the code departs from it: the probe of the first
    sample raises CalledProcessError and that of the second shows both
    signals.  [is_cluster_ready] turns the error into a plain [False], so
    the handler of the loop that holds [time.sleep(2)] is not entered: the
    run takes its two samples and returns [True] with no sleep at all.  No
    run of the loop ever sleeps. *)
Theorem probe_error_resampled_without_pause :
  is_cluster_ready (fun _ => Raise CalledProcessError) = Ok false
  /\ wait_for_ready
       {| clock := fun n => inject_Z (Z.of_nat n);
          sample := fun n cmd =>
            if (n <? 1)%nat then Raise CalledProcessError
            else if String.eqb cmd "all"
                 then Ok "default service/kubernetes ClusterIP"
                 else Ok "node1 Ready master" |}
       3 true 30
     = Some (Ok true, {| reads := 4; samples := 2; sleeps := [] |})
  /\ forall (world : oracle) (fuel : nat) (wait_ready : bool) (timeout : Q)
            r (p : progress),
       wait_for_ready world fuel wait_ready timeout = Some (r, p) ->
       sleeps p = [].
Proof.
  split; [reflexivity|]. split; [reflexivity|].
  intros world fuel wait_ready timeout r p H.
  apply poll_never_sleeps in H. exact H.
Qed.

Lemma probe_error_resampled_without_pause_witness :
  sleeps {| reads := 1; samples := 3; sleeps := [] |} = [].
Proof.
  destruct probe_error_resampled_without_pause as [_ [_ H]].
  apply (H {| clock := fun n => inject_Z (Z.of_nat n);
              sample := fun n cmd =>
                if (n <? 2)%nat then Raise OSError
                else if String.eqb cmd "all"
                     then Ok "default service/kubernetes ClusterIP"
                     else Ok "node1 Ready master" |}
           4%nat false 0 (Ok true)).
  reflexivity.
Defined.

(** * Further properties *)

(** ** What [xable] runs and how it ends *)

Lemma multi_mode_single_token (existing_addons : list string) (token : string) :
  multi_mode existing_addons [token] = false.
Proof.
  unfold multi_mode. cbn [List.length Nat.ltb Nat.leb].
  now rewrite andb_false_r.
Qed.

(** X1: whatever the request, every script [xable] runs belongs to an addon
    of the existing set: its command line is the script of the action for a
    name that is a member of the set. *)
Theorem xable_runs_only_existing_addons :
  forall (ext : collaborators) (action : string)
         (existing_addons addons xabled_addons : list string)
         (argv : list string),
    In argv (runs (fst (xable ext action existing_addons addons xabled_addons))) ->
    exists name args,
      In name existing_addons /\ argv = script ext action name :: args.
Proof.
  intros ext action existing_addons addons xabled_addons argv H.
  unfold xable in H. destruct (multi_mode existing_addons addons) eqn:Hm.
  - rewrite xable_each_runs in H. apply in_map_iff in H.
    destruct H as [token [<- Hin]]. apply filter_In in Hin.
    destruct Hin as [Hin _]. apply multi_mode_spec in Hm.
    destruct Hm as [Hall _]. rewrite Forall_forall in Hall.
    exists (hd EmptyString (split_colon token)), (tl (split_colon token)).
    split; [now apply Hall | reflexivity].
  - destruct addons as [|first rest]; [destruct H|].
    rewrite xable_one_cases in H.
    destruct (should_skip (hd EmptyString (split_colon first)) xabled_addons);
      [destruct H|].
    destruct (mem (hd EmptyString (split_colon first)) existing_addons) eqn:He;
      cbn [negb] in H; [|destruct H].
    destruct (truthy (tl (split_colon first)) && truthy rest); [destruct H|].
    destruct H as [<-|[]].
    exists (hd EmptyString (split_colon first)),
           (tl (split_colon first) ++ rest)%list.
    split; [now apply mem_In | reflexivity].
Qed.

Lemma xable_runs_only_existing_addons_witness :
  exists name args,
    In name ["dns"; "storage"]
    /\ ["actions/disable.storage.sh"; "a"; "b"]
       = script demo "disable" name :: args.
Proof.
  apply (xable_runs_only_existing_addons demo "disable" ["dns"; "storage"]
           ["dns"; "storage:a:b"] ["dns"]).
  simpl. tauto.
Defined.





(** X4: kubeflow is run again however often it has been xabled: the gate
    never stops the name, so in multi-addon mode the token [kubeflow] gets
    its script run, and in single-addon mode a request for an existing
    kubeflow with one argument style runs the script, for every list of
    already-xabled addons. *)
Theorem kubeflow_always_reruns :
  forall (ext : collaborators) (action : string)
         (existing_addons addons xabled_addons : list string),
    should_skip "kubeflow" xabled_addons = false
    /\ (multi_mode existing_addons addons = true ->
        In "kubeflow" addons ->
        In [script ext action "kubeflow"]
           (runs (fst (xable ext action existing_addons addons xabled_addons))))
    /\ (forall first rest,
          addons = first :: rest ->
          multi_mode existing_addons addons = false ->
          hd EmptyString (split_colon first) = "kubeflow" ->
          In "kubeflow" existing_addons ->
          truthy (tl (split_colon first)) && truthy rest = false ->
          xable ext action existing_addons addons xabled_addons
          = ([Run (script ext action "kubeflow"
                   :: (tl (split_colon first) ++ rest)%list)],
             Returned)).
Proof.
  intros ext action existing_addons addons xabled_addons.
  assert (should_skip "kubeflow" xabled_addons = false) as Hk
    by (unfold should_skip; cbn; now rewrite andb_false_r).
  split; [exact Hk|]. split.
  - intros Hm Hin. unfold xable. rewrite Hm, xable_each_runs.
    apply in_map_iff. exists "kubeflow". split; [reflexivity|].
    apply filter_In. split; [assumption | now rewrite Hk].
  - intros first rest -> Hm Hname Hex Hamb.
    unfold xable. rewrite Hm, xable_one_cases, Hname, Hk, Hamb.
    apply mem_In in Hex. now rewrite Hex.
Qed.

Lemma kubeflow_always_reruns_witness :
  In ["actions/enable.kubeflow.sh"]
     (runs (fst (xable demo "enable" ["dns"; "kubeflow"] ["dns"; "kubeflow"]
                   ["dns"; "kubeflow"])))
  /\ xable demo "enable" ["kubeflow"] ["kubeflow:bundle=lite"] ["kubeflow"]
     = ([Run ["actions/enable.kubeflow.sh"; "bundle=lite"]], Returned).
Proof.
  split.
  - destruct (kubeflow_always_reruns demo "enable" ["dns"; "kubeflow"]
                ["dns"; "kubeflow"] ["dns"; "kubeflow"]) as [_ [H _]].
    apply H; [reflexivity | simpl; tauto].
  - destruct (kubeflow_always_reruns demo "enable" ["kubeflow"]
                ["kubeflow:bundle=lite"] ["kubeflow"]) as [_ [_ H]].
    apply (H "kubeflow:bundle=lite" []); try reflexivity. simpl. tauto.
Defined.

Lemma split_colon_of_concat (parts : list string) :
  parts <> [] ->
  Forall (fun w => count_colons w = O) parts ->
  split_colon (String.concat ":" parts) = parts.
Proof.
  induction parts as [|a parts IH]; [congruence|].
  intros _ Hall. inversion Hall as [|? ? Ha Hrest]; subst.
  destruct parts as [|b parts].
  - now apply split_colon_plain.
  - change (String.concat ":" (a :: b :: parts))
      with (a ++ ":" ++ String.concat ":" (b :: parts)).
    rewrite (split_colon_app a _ Ha). f_equal.
    apply IH; [discriminate | assumption].
Qed.

(** X5: colon-separated values reach the script one by one: for a name and
    any number of values without colons (empty values included), the single
    token [name:v1:...:vn] of an existing addon that is not skipped runs the
    addon's script with exactly [v1 ... vn] as its arguments. *)
Theorem colon_values_reach_the_script :
  forall (ext : collaborators) (action : string)
         (existing_addons xabled_addons : list string)
         (name : string) (values : list string),
    count_colons name = O ->
    Forall (fun w => count_colons w = O) values ->
    In name existing_addons ->
    should_skip name xabled_addons = false ->
    xable ext action existing_addons [String.concat ":" (name :: values)]
          xabled_addons
    = ([Run (script ext action name :: values)], Returned).
Proof.
  intros ext action existing_addons xabled_addons name values Hn Hv Hex Hskip.
  unfold xable. rewrite multi_mode_single_token, xable_one_cases.
  rewrite split_colon_of_concat by (try discriminate; now constructor).
  cbn [hd tl]. rewrite Hskip. apply mem_In in Hex. rewrite Hex.
  cbn [negb truthy]. now rewrite andb_false_r, app_nil_r.
Qed.

Lemma colon_values_reach_the_script_witness :
  xable demo "enable" ["metallb"] ["metallb:10.0.0.1-10.0.0.9::x"] []
  = ([Run ["actions/enable.metallb.sh"; "10.0.0.1-10.0.0.9"; ""; "x"]],
     Returned).
Proof.
  apply (colon_values_reach_the_script demo "enable" ["metallb"] []
           "metallb" ["10.0.0.1-10.0.0.9"; ""; "x"]).
  - reflexivity.
  - repeat constructor.
  - simpl. tauto.
  - reflexivity.
Defined.



(** ** What a sample and the polling loop can report *)

(** One turn of the loop, the two ways of checking the deadline folded
    into one. *)
Lemma poll_unfold (world : oracle) (timeout start_time : Q) (isReady : bool)
    (p : progress) (fuel : nat) :
  poll world (S fuel) timeout start_time isReady p
  = let p1 := if Qgt_bool timeout 0 then tick p else p in
    if (Qgt_bool timeout 0
        && Qgt_bool (clock world (reads p)) (start_time + timeout))
       || isReady
    then Some (Ok isReady, p1)
    else
      match is_cluster_ready (sample world (samples p)) with
      | Ok r => poll world fuel timeout start_time r (sampled p1)
      | Raise e =>
          if is_Exception e
          then poll world fuel timeout start_time isReady
                    (slept 2 (sampled p1))
          else Some (Raise e, sampled p1)
      end.
Proof. cbn [poll]. destruct (Qgt_bool timeout 0); reflexivity. Qed.

Lemma is_cluster_ready_true_inv (kubectl_get : probe) :
  is_cluster_ready kubectl_get = Ok true ->
  exists service_output node_output,
    kubectl_get "all" = Ok service_output
    /\ kubectl_get "nodes" = Ok node_output
    /\ (exists a b, node_output = a ++ "Ready" ++ b)
    /\ (exists a b, service_output = a ++ "service/kubernetes" ++ b).
Proof.
  unfold is_cluster_ready.
  destruct (kubectl_get "all") as [s|e];
    [|destruct (is_Exception e); discriminate].
  destruct (kubectl_get "nodes") as [n|e];
    [|destruct (is_Exception e); discriminate].
  destruct (contains "Ready" n) eqn:Hn; cbn [andb]; [|discriminate].
  destruct (contains "service/kubernetes" s) eqn:Hs; [|discriminate].
  intros _. exists s, n. rewrite <- !contains_spec. auto.
Qed.

(** A loop that returns [True] does so right after a sample that was
    ready, all samples before it having been not ready. *)
Lemma poll_true_sound (world : oracle) (timeout start_time : Q) :
  forall (fuel : nat) (p p' : progress),
    poll world fuel timeout start_time false p = Some (Ok true, p') ->
    (samples p < samples p')%nat
    /\ is_cluster_ready (sample world (samples p' - 1)) = Ok true
    /\ forall i, (samples p <= i < samples p' - 1)%nat ->
                 is_cluster_ready (sample world i) = Ok false.
Proof.
  induction fuel as [|fuel IH]; intros p p' H; [discriminate|].
  rewrite poll_unfold in H. cbn zeta in H. rewrite orb_false_r in H.
  destruct (Qgt_bool timeout 0
            && Qgt_bool (clock world (reads p)) (start_time + timeout));
    [discriminate|].
  destruct (is_cluster_ready (sample world (samples p))) as [r|e] eqn:E.
  - destruct r.
    + destruct fuel as [|fuel]; [discriminate|].
      rewrite poll_unfold in H. cbn zeta in H. rewrite orb_true_r in H.
      inversion H; subst p'. clear H.
      assert (forall q, samples (if Qgt_bool timeout 0 then tick q else q)
                        = samples q) as Hs
        by (intros q; destruct (Qgt_bool timeout 0); reflexivity).
      rewrite Hs. cbn [sampled samples]. rewrite Hs.
      replace (S (samples p) - 1)%nat with (samples p) by lia.
      split; [lia|]. split; [assumption|]. intros i Hi. lia.
    + apply IH in H. destruct H as [Hlt [Hlast Hbefore]].
      assert (samples (sampled (if Qgt_bool timeout 0 then tick p else p))
              = S (samples p)) as Hs
        by (destruct (Qgt_bool timeout 0); reflexivity).
      rewrite Hs in *. split; [lia|]. split; [assumption|].
      intros i Hi. destruct (Nat.eq_dec i (samples p)) as [->|Hne];
        [assumption|]. apply Hbefore. lia.
  - rewrite (is_cluster_ready_raises _ _ E) in H. discriminate.
Qed.

(** A loop that returns [False] was given a deadline and has just read a
    clock value past it; no earlier reading was past it, every sample it
    took was not ready, and it read the clock once more than it sampled. *)
Lemma poll_false_sound (world : oracle) (timeout start_time : Q) :
  forall (fuel : nat) (isReady : bool) (p p' : progress),
    poll world fuel timeout start_time isReady p = Some (Ok false, p') ->
    isReady = false
    /\ Qgt_bool timeout 0 = true
    /\ (reads p < reads p')%nat
    /\ Qgt_bool (clock world (reads p' - 1)) (start_time + timeout) = true
    /\ (forall i, (reads p <= i < reads p' - 1)%nat ->
                  Qgt_bool (clock world i) (start_time + timeout) = false)
    /\ (forall i, (samples p <= i < samples p')%nat ->
                  is_cluster_ready (sample world i) = Ok false)
    /\ (reads p' + samples p = reads p + samples p' + 1)%nat.
Proof.
  induction fuel as [|fuel IH]; intros isReady p p' H; [discriminate|].
  rewrite poll_unfold in H. cbn zeta in H.
  destruct (Qgt_bool timeout 0) eqn:Ht; cbn [andb] in H.
  - destruct (Qgt_bool (clock world (reads p)) (start_time + timeout)) eqn:Hc;
      cbn [orb] in H.
    + inversion H; subst. cbn [tick reads samples].
      replace (S (reads p) - 1)%nat with (reads p) by lia.
      repeat split; try assumption; try lia; intros i Hi; lia.
    + destruct isReady; [discriminate|].
      destruct (is_cluster_ready (sample world (samples p))) as [r|e] eqn:E.
      * apply IH in H.
        destruct H as [-> [_ [Hlt [Hlast [Hclock [Hsamples Hcount]]]]]].
        cbn [sampled tick reads samples] in *.
        repeat split; try assumption; try lia.
        -- intros i Hi. destruct (Nat.eq_dec i (reads p)) as [->|Hne];
             [assumption|]. apply Hclock. lia.
        -- intros i Hi. destruct (Nat.eq_dec i (samples p)) as [->|Hne];
             [assumption|]. apply Hsamples. lia.
      * rewrite (is_cluster_ready_raises _ _ E) in H. discriminate.
  - cbn [orb] in H. destruct isReady; [discriminate|].
    destruct (is_cluster_ready (sample world (samples p))) as [r|e] eqn:E.
    + apply IH in H. destruct H as [_ [Habs _]]. discriminate.
    + rewrite (is_cluster_ready_raises _ _ E) in H. discriminate.
Qed.


(** X7: [wait_for_ready] never reports readiness it has not seen: when it
    returns [True], the last sample it took had [service/kubernetes] in the
    services listing and [Ready] in the nodes listing, and every sample
    before that one was not ready. *)
Theorem wait_for_ready_true_is_observed :
  forall (world : oracle) (fuel : nat) (wait_ready : bool) (timeout : Q)
         (p : progress),
    wait_for_ready world fuel wait_ready timeout = Some (Ok true, p) ->
    (1 <= samples p)%nat
    /\ (exists service_output node_output,
           sample world (samples p - 1) "all" = Ok service_output
           /\ sample world (samples p - 1) "nodes" = Ok node_output
           /\ (exists a b, node_output = a ++ "Ready" ++ b)
           /\ (exists a b, service_output = a ++ "service/kubernetes" ++ b))
    /\ forall i, (i < samples p - 1)%nat ->
                 is_cluster_ready (sample world i) = Ok false.
Proof.
  intros world fuel wait_ready timeout p H.
  apply poll_true_sound in H. cbn [samples] in H.
  destruct H as [Hlt [Hlast Hbefore]].
  split; [lia|]. split; [now apply is_cluster_ready_true_inv|].
  intros i Hi. apply Hbefore. lia.
Qed.

Lemma wait_for_ready_true_is_observed_witness :
  (1 <= 2)%nat
  /\ (exists service_output node_output,
         (if (2 - 1 <? 1)%nat then Raise CalledProcessError
          else Ok "default service/kubernetes ClusterIP") = Ok service_output
         /\ (if (2 - 1 <? 1)%nat then Raise CalledProcessError
             else Ok "node1 Ready master") = Ok node_output
         /\ (exists a b, node_output = a ++ "Ready" ++ b)
         /\ (exists a b, service_output = a ++ "service/kubernetes" ++ b))
  /\ forall i, (i < 2 - 1)%nat ->
               is_cluster_ready
                 (fun cmd => if (i <? 1)%nat then Raise CalledProcessError
                             else if String.eqb cmd "all"
                                  then Ok "default service/kubernetes ClusterIP"
                                  else Ok "node1 Ready master")
               = Ok false.
Proof.
  exact (wait_for_ready_true_is_observed
           {| clock := fun n => inject_Z (Z.of_nat n);
              sample := fun n cmd =>
                if (n <? 1)%nat then Raise CalledProcessError
                else if String.eqb cmd "all"
                     then Ok "default service/kubernetes ClusterIP"
                     else Ok "node1 Ready master" |}
           3 true 30 {| reads := 4; samples := 2; sleeps := [] |} eq_refl).
Defined.

(** X8: [wait_for_ready] gives up only on the deadline: when it returns
    [False], the timeout is above zero, the last clock value it read lies
    more than the timeout after the start and no earlier one did, every
    sample it took was not ready, and it took one sample for every clock
    reading but the first and the last. *)
Theorem wait_for_ready_false_is_timeout :
  forall (world : oracle) (fuel : nat) (wait_ready : bool) (timeout : Q)
         (p : progress),
    wait_for_ready world fuel wait_ready timeout = Some (Ok false, p) ->
    (0 < timeout)%Q
    /\ (2 <= reads p)%nat
    /\ (timeout < clock world (reads p - 1) - clock world 0)%Q
    /\ (forall i, (1 <= i < reads p - 1)%nat ->
                  (clock world i - clock world 0 <= timeout)%Q)
    /\ samples p = (reads p - 2)%nat
    /\ forall i, (i < samples p)%nat ->
                 is_cluster_ready (sample world i) = Ok false.
Proof.
  intros world fuel wait_ready timeout p H.
  apply poll_false_sound in H. cbn [reads samples] in H.
  destruct H as [_ [Ht [Hlt [Hlast [Hclock [Hsamples Hcount]]]]]].
  apply Qgt_bool_true in Ht. apply Qgt_bool_true in Hlast.
  split; [assumption|]. split; [lia|]. split; [lra|].
  split; [|split; [lia|]].
  - intros i Hi. specialize (Hclock i Hi). apply Qgt_bool_false in Hclock. lra.
  - intros i Hi. apply Hsamples. lia.
Qed.

Lemma wait_for_ready_false_is_timeout_witness :
  (0 < 3)%Q
  /\ (2 <= 5)%nat
  /\ (3 < inject_Z (Z.of_nat (5 - 1)) - inject_Z (Z.of_nat 0))%Q
  /\ (forall i, (1 <= i < 5 - 1)%nat ->
                (inject_Z (Z.of_nat i) - inject_Z (Z.of_nat 0) <= 3)%Q)
  /\ 3%nat = (5 - 2)%nat
  /\ forall i, (i < 3)%nat ->
               is_cluster_ready (fun _ : string => Ok "") = Ok false.
Proof.
  exact (wait_for_ready_false_is_timeout
           {| clock := fun n => inject_Z (Z.of_nat n);
              sample := fun _ _ => Ok "" |}
           10 true 3 {| reads := 5; samples := 3; sleeps := [] |} eq_refl).
Defined.



(** X10: when the first deadline check already reads a clock value past the
    deadline, [wait_for_ready] returns [False] without probing at all,
    whatever state the cluster is in. *)
Theorem wait_for_ready_late_first_check :
  forall (world : oracle) (fuel : nat) (wait_ready : bool) (timeout : Q),
    (0 < timeout)%Q ->
    (clock world 0 + timeout < clock world 1)%Q ->
    wait_for_ready world (S fuel) wait_ready timeout
    = Some (Ok false, {| reads := 2; samples := 0; sleeps := [] |}).
Proof.
  intros world fuel wait_ready timeout Hpos Hlate.
  unfold wait_for_ready. rewrite poll_unfold. cbn [reads].
  apply Qgt_bool_true in Hpos. apply Qgt_bool_true in Hlate.
  rewrite Hpos, Hlate. reflexivity.
Qed.

Lemma wait_for_ready_late_first_check_witness :
  wait_for_ready
    {| clock := fun n => inject_Z (Z.of_nat (n * 60));
       sample := fun _ cmd =>
         if String.eqb cmd "all"
         then Ok "default service/kubernetes ClusterIP"
         else Ok "node1 Ready master" |}
    (S 0) true 30
  = Some (Ok false, {| reads := 2; samples := 0; sleeps := [] |}).
Proof.
  apply wait_for_ready_late_first_check; reflexivity.
Defined.

(** X11: a node that is not ready counts as ready: [NotReady] contains
    [Ready], so a nodes listing that shows [NotReady], beside a services
    listing with [service/kubernetes], makes the sample report ready. *)
Theorem is_cluster_ready_accepts_NotReady :
  forall (kubectl_get : probe) (service_output node_output a b : string),
    kubectl_get "all" = Ok service_output ->
    kubectl_get "nodes" = Ok node_output ->
    node_output = a ++ "NotReady" ++ b ->
    contains "service/kubernetes" service_output = true ->
    is_cluster_ready kubectl_get = Ok true.
Proof.
  intros kubectl_get service_output node_output a b Hs Hn Hnode Hsvc.
  apply (is_cluster_ready_signals kubectl_get service_output node_output Hs Hn).
  - exists (a ++ "Not"), b. rewrite Hnode. now rewrite append_assoc.
  - now apply contains_spec.
Qed.

Lemma is_cluster_ready_accepts_NotReady_witness :
  is_cluster_ready
    (fun cmd => if String.eqb cmd "all"
                then Ok "default service/kubernetes ClusterIP"
                else Ok "node1 NotReady master")
  = Ok true.
Proof.
  apply (is_cluster_ready_accepts_NotReady _
           "default service/kubernetes ClusterIP" "node1 NotReady master"
           "node1 " " master"); reflexivity.
Defined.

(** X12: a probe that keeps failing, with no deadline, keeps
    [wait_for_ready] polling for ever: when the services query of every
    sample raises an [Exception] and the timeout is zero or less, no amount
    of fuel ends the loop. *)
Theorem wait_for_ready_failing_probe_never_returns :
  forall (world : oracle) (wait_ready : bool) (timeout : Q),
    (timeout <= 0)%Q ->
    (forall n, exists e,
        is_Exception e = true /\ sample world n "all" = Raise e) ->
    forall fuel, wait_for_ready world fuel wait_ready timeout = None.
Proof.
  intros world wait_ready timeout Hno Hfail fuel.
  unfold wait_for_ready. replace fuel with (fuel + 0)%nat at 1 by lia.
  rewrite poll_not_ready_steps; [reflexivity | |].
  - intros Ht. apply Qgt_bool_true in Ht. lra.
  - intros i _. destruct (Hfail i) as [e [He Hall]].
    unfold is_cluster_ready. now rewrite Hall, He.
Qed.

Lemma wait_for_ready_failing_probe_never_returns_witness :
  wait_for_ready
    {| clock := fun n => inject_Z (Z.of_nat n);
       sample := fun _ _ => Raise OSError |}
    1000 false 0
  = None.
Proof.
  apply wait_for_ready_failing_probe_never_returns.
  - discriminate.
  - intros n. exists OSError. split; reflexivity.
Defined.

(** ** The addon catalog *)

Lemma leb_refl (s : string) : String.leb s s = true.
Proof. destruct (String.leb_total s s); assumption. Qed.

Lemma insert_by_name_HdRel (b a : Catalog.addon) (l : list Catalog.addon) :
  String.leb (Catalog.name b) (Catalog.name a) = true ->
  HdRel (fun x y => String.leb (Catalog.name x) (Catalog.name y) = true) b l ->
  HdRel (fun x y => String.leb (Catalog.name x) (Catalog.name y) = true) b
        (Catalog.insert_by_name a l).
Proof.
  intros Hba Hl. destruct l as [|c l]; cbn [Catalog.insert_by_name].
  - now constructor.
  - destruct (String.leb (Catalog.name a) (Catalog.name c));
      constructor; [assumption|]. now inversion Hl.
Qed.

Lemma insert_by_name_sorted (a : Catalog.addon) (l : list Catalog.addon) :
  Sorted (fun x y => String.leb (Catalog.name x) (Catalog.name y) = true) l ->
  Sorted (fun x y => String.leb (Catalog.name x) (Catalog.name y) = true)
         (Catalog.insert_by_name a l).
Proof.
  induction l as [|b l IH]; intros Hs; cbn [Catalog.insert_by_name].
  - repeat constructor.
  - inversion Hs as [|? ? Hl Hb]; subst.
    destruct (String.leb (Catalog.name a) (Catalog.name b)) eqn:E.
    + constructor; [assumption | now constructor].
    + constructor; [now apply IH|].
      apply insert_by_name_HdRel; [|assumption].
      destruct (String.leb_total (Catalog.name a) (Catalog.name b));
        [congruence | assumption].
Qed.

Lemma insert_by_name_perm (a : Catalog.addon) (l : list Catalog.addon) :
  Permutation (Catalog.insert_by_name a l) (a :: l).
Proof.
  induction l as [|b l IH]; cbn [Catalog.insert_by_name]; [reflexivity|].
  destruct (String.leb (Catalog.name a) (Catalog.name b)); [reflexivity|].
  rewrite IH. apply perm_swap.
Qed.

Lemma sorted_by_name_perm (l : list Catalog.addon) :
  Permutation (Catalog.sorted_by_name l) l.
Proof.
  induction l as [|a l IH]; [reflexivity|].
  cbn [Catalog.sorted_by_name fold_right].
  rewrite insert_by_name_perm. now constructor.
Qed.

(** Sorting does not disturb the addons of one name. *)
Lemma get_addon_by_name_insert (n : string) (a : Catalog.addon)
    (l : list Catalog.addon) :
  Catalog.get_addon_by_name (Catalog.insert_by_name a l) n
  = Catalog.get_addon_by_name (a :: l) n.
Proof.
  unfold Catalog.get_addon_by_name.
  induction l as [|b l IH]; cbn [Catalog.insert_by_name]; [reflexivity|].
  destruct (String.leb (Catalog.name a) (Catalog.name b)) eqn:E;
    [reflexivity|].
  cbn [filter] in *. rewrite IH.
  destruct (String.eqb n (Catalog.name a)) eqn:Ea; [|reflexivity].
  destruct (String.eqb n (Catalog.name b)) eqn:Eb; [|reflexivity].
  apply String.eqb_eq in Ea. apply String.eqb_eq in Eb.
  rewrite <- Ea, <- Eb, leb_refl in E. discriminate.
Qed.

Lemma get_addon_by_name_sorted (n : string) (l : list Catalog.addon) :
  Catalog.get_addon_by_name (Catalog.sorted_by_name l) n
  = Catalog.get_addon_by_name l n.
Proof.
  induction l as [|a l IH]; [reflexivity|].
  cbn [Catalog.sorted_by_name fold_right].
  rewrite get_addon_by_name_insert.
  unfold Catalog.get_addon_by_name in *. cbn [filter].
  fold (Catalog.sorted_by_name l). now rewrite IH.
Qed.

Lemma filter_swap {A : Type} (f g : A -> bool) (l : list A) :
  filter f (filter g l) = filter g (filter f l).
Proof.
  induction l as [|x l IH]; [reflexivity|].
  cbn [filter]. destruct (f x) eqn:Ef; destruct (g x) eqn:Eg;
    cbn [filter]; rewrite ?Ef, ?Eg, IH; reflexivity.
Qed.

(** X13: the list of available addons comes out ordered by name: each
    addon's name is at most the name of the next one. *)
Theorem get_available_addons_sorted :
  forall (addons : list Catalog.addon) (arch : string),
    Sorted (fun x y => String.leb (Catalog.name x) (Catalog.name y) = true)
           (Catalog.get_available_addons addons arch).
Proof.
  intros addons arch. unfold Catalog.get_available_addons.
  induction (filter (fun a => mem arch (Catalog.supported_architectures a))
                    addons) as [|a l IH].
  - constructor.
  - apply insert_by_name_sorted. exact IH.
Qed.

(** X14: the available addons are exactly the addons of the file that
    support the architecture, each as often as the file lists it: nothing
    is lost or added by the sort. *)
Theorem get_available_addons_content :
  forall (addons : list Catalog.addon) (arch : string),
    Permutation
      (Catalog.get_available_addons addons arch)
      (filter (fun a => mem arch (Catalog.supported_architectures a)) addons)
    /\ forall a,
         In a (Catalog.get_available_addons addons arch)
         <-> In a addons /\ In arch (Catalog.supported_architectures a).
Proof.
  intros addons arch.
  assert (Permutation
            (Catalog.get_available_addons addons arch)
            (filter (fun a => mem arch (Catalog.supported_architectures a))
                    addons)) as Hp by apply sorted_by_name_perm.
  split; [exact Hp|]. intros a. split.
  - intros H. apply (Permutation_in _ Hp) in H. apply filter_In in H.
    destruct H as [Hin Hm]. split; [assumption | now apply mem_In].
  - intros [Hin Harch]. apply (Permutation_in _ (Permutation_sym Hp)).
    apply filter_In. split; [assumption | now apply mem_In].
Qed.

(** X15: looking an addon up by name in the available list gives the
    entries of that name that support the architecture, in the order of the
    file: the sort keeps entries of equal name in place, so the lookup
    commutes with it. *)
Theorem get_addon_by_name_of_available :
  forall (addons : list Catalog.addon) (arch n : string),
    Catalog.get_addon_by_name (Catalog.get_available_addons addons arch) n
    = filter (fun a => mem arch (Catalog.supported_architectures a))
             (Catalog.get_addon_by_name addons n).
Proof.
  intros addons arch n. unfold Catalog.get_available_addons.
  rewrite get_addon_by_name_sorted. unfold Catalog.get_addon_by_name.
  apply filter_swap.
Qed.

(** ** Running commands *)

(** X16: [run] returns an output exactly when everything went well: [PATH]
    and [SNAP] are set, the command could be started in the environment
    whose [PATH] has [SNAP] appended, it exited with status 0 and its
    standard output is UTF-8; then the result is that output, decoded, and
    nothing is printed. *)
Theorem run_returns_iff :
  forall (sys : Process.system) (args : list string) (die : bool)
         (tr : list Process.printed) (output : string),
    Process.run sys args die = (tr, Process.Return output)
    <-> exists path snap result,
          Process.environ sys "PATH" = Some path
          /\ Process.environ sys "SNAP" = Some snap
          /\ Process.subprocess_run sys args (Process.child_env sys path snap)
             = Some result
          /\ Process.returncode result = 0%Z
          /\ Process.decode sys (Process.stdout result) = Some output
          /\ tr = [].
Proof.
  intros sys args die tr output. unfold Process.run. split.
  - destruct (Process.environ sys "PATH") as [path|]; [|discriminate].
    destruct (Process.environ sys "SNAP") as [snap|]; [|discriminate].
    destruct (Process.subprocess_run sys args
                (Process.child_env sys path snap)) as [result|] eqn:Hr;
      [|discriminate].
    destruct (Z.eqb (Process.returncode result) 0) eqn:Hz.
    + destruct (Process.decode sys (Process.stdout result)) as [o|] eqn:Hd;
        [|discriminate].
      intros H. inversion H; subst.
      exists path, snap, result. apply Z.eqb_eq in Hz. auto 10.
    + destruct die; [|discriminate].
      destruct (Process.stderr result); [discriminate|].
      destruct (Process.decode sys _); discriminate.
  - intros [path [snap [result [Hp [Hs [Hr [Hz [Hd ->]]]]]]]].
    rewrite Hp, Hs, Hr, Hz, Hd. reflexivity.
Qed.

(** X17: [die] decides how a failed command ends [run] and nothing else:
    without [die], [run] never exits and never prints; with [die] it never
    raises CalledProcessError; and in both cases an exit has status 1 and
    happens only for a command that was started and gave a status other
    than 0, and anything printed is followed by that exit. *)
Theorem run_die_semantics :
  forall (sys : Process.system) (args : list string),
    (forall code, snd (Process.run sys args false) <> Process.Exit code)
    /\ fst (Process.run sys args false) = []
    /\ (forall rc, snd (Process.run sys args true)
                   <> Process.Raise (Process.CalledProcessError rc))
    /\ forall die,
         (forall code,
             snd (Process.run sys args die) = Process.Exit code ->
             code = 1%Z /\ die = true
             /\ exists path snap result,
                  Process.subprocess_run sys args
                    (Process.child_env sys path snap) = Some result
                  /\ Process.returncode result <> 0%Z)
         /\ (fst (Process.run sys args die) <> [] ->
             snd (Process.run sys args die) = Process.Exit 1).
Proof.
  intros sys args.
  assert (forall die,
             (forall code,
                 snd (Process.run sys args die) = Process.Exit code ->
                 code = 1%Z /\ die = true
                 /\ exists path snap result,
                      Process.subprocess_run sys args
                        (Process.child_env sys path snap) = Some result
                      /\ Process.returncode result <> 0%Z)
             /\ (fst (Process.run sys args die) <> [] ->
                 snd (Process.run sys args die) = Process.Exit 1)
             /\ (die = false -> fst (Process.run sys args die) = [])
             /\ (die = true ->
                 forall rc, snd (Process.run sys args die)
                            <> Process.Raise (Process.CalledProcessError rc)))
    as H.
  { intros die. unfold Process.run.
    destruct (Process.environ sys "PATH") as [path|];
      [|cbn; repeat split; intros; congruence].
    destruct (Process.environ sys "SNAP") as [snap|];
      [|cbn; repeat split; intros; congruence].
    destruct (Process.subprocess_run sys args
                (Process.child_env sys path snap)) as [result|] eqn:Hr;
      [|cbn; repeat split; intros; congruence].
    destruct (Z.eqb (Process.returncode result) 0) eqn:Hz.
    - destruct (Process.decode sys (Process.stdout result));
        cbn; repeat split; intros; congruence.
    - apply Z.eqb_neq in Hz.
      destruct die; [|cbn; repeat split; intros; congruence].
      destruct (Process.stderr result);
        [|destruct (Process.decode sys _)];
        cbn; repeat split; intros; try congruence;
        exists path, snap, result; split; assumption. }
  split; [|split; [|split]].
  - intros code Hc. destruct (H false) as [He _].
    destruct (He code Hc) as [_ [Habs _]]. discriminate.
  - destruct (H false) as [_ [_ [Hf _]]]. now apply Hf.
  - destruct (H true) as [_ [_ [_ Ht]]]. now apply Ht.
  - intros die. destruct (H die) as [He [Hp _]]. split; assumption.
Qed.

(** X18: the kubectl helpers never end the process and never print: for
    every namespace, [kubectl_get] and [kubectl_get_clusterroles] either
    return kubectl's output or raise, and when kubectl was started and gave
    a status other than 0 they raise CalledProcessError with that status. *)
Theorem kubectl_get_never_exits :
  forall (sys : Process.system) (kubeconfig cmd namespace : string),
    (forall code,
        snd (Process.kubectl_get sys kubeconfig cmd namespace)
        <> Process.Exit code)
    /\ fst (Process.kubectl_get sys kubeconfig cmd namespace) = []
    /\ (forall code,
           snd (Process.kubectl_get_clusterroles sys kubeconfig)
           <> Process.Exit code)
    /\ fst (Process.kubectl_get_clusterroles sys kubeconfig) = []
    /\ forall path snap result,
         Process.environ sys "PATH" = Some path ->
         Process.environ sys "SNAP" = Some snap ->
         Process.subprocess_run sys
           ["kubectl"; kubeconfig; "get"; cmd; "--all-namespaces"]
           (Process.child_env sys path snap) = Some result ->
         Process.returncode result <> 0%Z ->
         Process.kubectl_get sys kubeconfig cmd "--all-namespaces"
         = ([], Process.Raise
                  (Process.CalledProcessError (Process.returncode result))).
Proof.
  intros sys kubeconfig cmd namespace.
  assert (forall args,
             (forall code, snd (Process.run sys args false)
                           <> Process.Exit code)
             /\ fst (Process.run sys args false) = []) as H.
  { intros args. unfold Process.run.
    destruct (Process.environ sys "PATH"); [|cbn; split; congruence].
    destruct (Process.environ sys "SNAP"); [|cbn; split; congruence].
    destruct (Process.subprocess_run sys args _); [|cbn; split; congruence].
    destruct (Z.eqb _ 0); [|cbn; split; congruence].
    destruct (Process.decode sys _); cbn; split; congruence. }
  unfold Process.kubectl_get, Process.kubectl_get_clusterroles.
  split; [destruct (String.eqb namespace "--all-namespaces"); apply H|].
  split; [destruct (String.eqb namespace "--all-namespaces"); apply H|].
  split; [apply H|]. split; [apply H|].
  intros path snap result Hp Hs Hr Hz. cbn [String.eqb].
  unfold Process.run. rewrite Hp, Hs, Hr.
  apply Z.eqb_neq in Hz. now rewrite Hz.
Qed.

Lemma run_returns_iff_witness :
  Process.run
    {| Process.environ := fun key =>
         if String.eqb key "PATH" then Some "/usr/bin"
         else if String.eqb key "SNAP" then Some "/snap/microk8s/1"
              else None;
       Process.subprocess_run := fun _ env =>
         Some {| Process.returncode := 0;
                 Process.stdout :=
                   match env "PATH" with Some p => p | None => "" end;
                 Process.stderr := "" |};
       Process.decode := fun bytes => Some bytes |}
    ["printenv"; "PATH"] true
  = ([], Process.Return "/usr/bin:/snap/microk8s/1").
Proof.
  apply run_returns_iff.
  exists "/usr/bin", "/snap/microk8s/1",
    {| Process.returncode := 0;
       Process.stdout := "/usr/bin:/snap/microk8s/1";
       Process.stderr := "" |}.
  repeat split; reflexivity.
Defined.

Lemma run_die_semantics_witness :
  let sys :=
    {| Process.environ := fun key =>
         if String.eqb key "PATH" then Some "/usr/bin"
         else if String.eqb key "SNAP" then Some "/snap/microk8s/1"
              else None;
       Process.subprocess_run := fun _ _ =>
         Some {| Process.returncode := 1;
                 Process.stdout := "";
                 Process.stderr := "connection refused" |};
       Process.decode := fun bytes => Some bytes |} in
  snd (Process.run sys ["kubectl"; "get"; "all"] true) = Process.Exit 1
  /\ (1%Z = 1%Z /\ true = true
      /\ exists path snap result,
           Process.subprocess_run sys ["kubectl"; "get"; "all"]
             (Process.child_env sys path snap) = Some result
           /\ Process.returncode result <> 0%Z).
Proof.
  intros sys.
  destruct (run_die_semantics sys ["kubectl"; "get"; "all"])
    as [_ [_ [_ H]]].
  destruct (H true) as [Hexit Hprinted].
  split.
  - apply Hprinted. discriminate.
  - apply (Hexit 1%Z). reflexivity.
Defined.

Lemma kubectl_get_never_exits_witness :
  Process.kubectl_get
    {| Process.environ := fun key =>
         if String.eqb key "PATH" then Some "/usr/bin"
         else if String.eqb key "SNAP" then Some "/snap/microk8s/1"
              else None;
       Process.subprocess_run := fun _ _ =>
         Some {| Process.returncode := 1;
                 Process.stdout := "";
                 Process.stderr := "connection refused" |};
       Process.decode := fun bytes => Some bytes |}
    (Process.kubeconfig (fun _ => None)) "nodes" "--all-namespaces"
  = ([], Process.Raise (Process.CalledProcessError 1)).
Proof.
  refine (let H := kubectl_get_never_exits
                     {| Process.environ := fun key =>
                          if String.eqb key "PATH" then Some "/usr/bin"
                          else if String.eqb key "SNAP"
                               then Some "/snap/microk8s/1"
                               else None;
                        Process.subprocess_run := fun _ _ =>
                          Some {| Process.returncode := 1;
                                  Process.stdout := "";
                                  Process.stderr := "connection refused" |};
                        Process.decode := fun bytes => Some bytes |}
                     (Process.kubeconfig (fun _ => None)) "nodes"
                     "--all-namespaces" in _).
  destruct H as [_ [_ [_ [_ H]]]].
  apply (H "/usr/bin" "/snap/microk8s/1"
           {| Process.returncode := 1;
              Process.stdout := "";
              Process.stderr := "connection refused" |});
    try reflexivity.
  discriminate.
Defined.
